(** * trollflow-sat: the satpy writer stage ([trollflow_sat/satpy_writer.py])

    A shallow embedding of [DataWriter] (the worker whose [run] loop drains
    the work queue, stages deferred writes, and flushes them together with
    their notification messages at the end-of-batch sentinel) and of
    [DataWriterContainer] (the wrapper that owns the worker and its lock
    reference), followed by the properties of the stage.

    Python objects are modelled as follows.
    - dicts are finite maps [gmap string value]; [d.get(k, dflt)] is
      [default dflt (d !! k)], [d[k]] raises [KeyError] when [d !! k = None],
      [d.update(e)] is the union [e ∪ d] (bindings of [e] win);
    - [self.data] and [self.messages] are lists, [append] adds at the end;
    - an exception is a value of [exn]; a computation is a function from the
      worker's fields to the new fields, the events it caused in the outside
      world, and either an exception or a result;
    - the collaborators that live outside this file ([trollflow_sat.utils],
      [trollsift.compose], [os.path], [satpy.writers.compute_writer_results],
      the validation that posttroll's [Message(...)] runs and the string
      form of a posttroll message) are the fields of [Collaborators]; every
      definition is parametric in them. *)

From stdpp Require Import gmap strings list fin_maps.
From Stdlib Require Import ZArith.

Set Warnings "-register-all".
Set Default Proof Using "Type".

(** ** Values and the data model *)

Inductive value : Type :=
  | VNone
  | VInt (z : Z)
  | VStr (s : string)
  | VTuple (vs : list value)
  | VDict (kv : gmap string value).

Abbreviation dict := (gmap string value).

(** A lock handle of the previous worker: an opaque reference. *)
Definition lock : Type := string.

(** What [lcl[prod]] gives: a dataset with its [name] and the object found
    by [attrs.get("area")]. The object is seen through attribute reads only:
    [None] stands for Python's [None] (no ["area"] entry), which has none of
    the attributes read here; [Some o] is an object whose attributes are the
    bindings of [o]. *)
Record Dataset := {
  ds_name : string;
  ds_area : option dict
}.

(** [area.attr]: [None] models the [AttributeError]. *)
Definition getattr (o : option dict) (attr : string) : option value :=
  o ≫= (λ fields, fields !! attr).

(** The scene handle [lcl]: [lcl.attrs] and the datasets behind [lcl.keys()]
    and [lcl[prod]]. *)
Record Scene := {
  attrs : dict;
  datasets : list Dataset
}.

(** [lcl[prod]]: the first dataset of that name. *)
Definition scene_getitem (lcl : Scene) (prod : string) : option Dataset :=
  list_find (λ d, ds_name d = prod) (datasets lcl) ≫= (λ p, Some p.2).

Record ExtraMetadata := {
  product_config : value;
  products : list string
}.

(** A queue item that is not [None]: [data['scene']] and
    [data['extra_metadata']]. *)
Record DataItem := {
  scene : Scene;
  extra_metadata : ExtraMetadata
}.

(** What [queue.get] returns: [None] is the end-of-batch sentinel. *)
Inductive WorkItem :=
  | EndOfBatch
  | Data (d : DataItem).

(** The handle returned by [lcl.save_datasets(..., compute=False, **kwargs)]:
    the description of the write, that is, the arguments of the call. *)
Record DeferredWrite := {
  dw_datasets : list string;
  dw_file_pattern : string;
  dw_writer : string;
  dw_compute : bool;
  dw_kwargs : dict
}.

(** [Message(subject, type, data)]. *)
Record Message := {
  msg_subject : string;
  msg_type : string;
  msg_data : dict
}.

Inductive exn :=
  | KeyError (key : string)
  | IndexError
  | AttributeError (attr : string)
  | WriteError (what : string)
  | MessageError (what : string).

(** What the worker does to the outside world, in order. *)
Inductive event :=
  | EvSleep                               (* time.sleep(1) *)
  | EvEmpty                               (* queue.get timed out: queue.Empty *)
  | EvGet (item : WorkItem)               (* queue.get returned item *)
  | EvTaskDone                            (* queue.task_done() *)
  | EvAcquire (l : lock)                  (* utils.acquire_lock(l) *)
  | EvRelease (ls : list lock)            (* utils.release_locks(ls, ...) *)
  | EvSave (d : DeferredWrite)            (* lcl.save_datasets(..., compute=False) *)
  | EvCompute (ds : list DeferredWrite)   (* compute_writer_results(ds) is called *)
  | EvComputed (ds : list DeferredWrite)  (* ... and has returned *)
  | EvSend (wire : string).               (* pub.send(str(msg)) *)

(** The functions the file imports. [compute_writer_results] answers [None]
    when the writes complete and [Some e] when the call raises [e];
    [message_error] is the validation that posttroll's [Message(...)] runs
    on the subject, the type and the data it is given: [None] when the
    message is made, [Some e] when the constructor raises [e]. *)
Record Collaborators := {
  create_fnames : dict → value → string → list string * string;
  get_writer_names : value → string → value → list string;
  select_dict_items : dict → dict → dict;
  compose : string → dict → string;
  basename : string → string;
  abspath : string → string;
  compute_writer_results : list DeferredWrite → option exn;
  message_error : Message → option exn;
  msg_str : Message → string
}.

(** ** The worker: [class DataWriter] *)

Record DataWriter := {
  queue : option (list WorkItem);
  _loop : bool;
  _save_settings : option dict;
  _port : Z;
  _nameservers : list string;
  _topic : option string;
  prev_lock : option lock;
  _publish_vars : dict;
  data : list DeferredWrite;
  messages : list Message
}.

(** The [nameservers] argument of the constructor: [None], one value that
    is not a list, tuple or set, or such a collection. *)
Inductive NameserversArg :=
  | NsNone
  | NsScalar (ns : string)
  | NsCollection (nss : list string).

(** [DataWriter.__init__]. [publish_vars or {}] is [default ∅]. *)
Definition DataWriter_init (q : option (list WorkItem))
    (save_settings : option dict) (topic : option string) (port : Z)
    (nameservers : NameserversArg) (lck : option lock)
    (publish_vars : option dict) : DataWriter :=
  {| queue := q;
     _loop := false;
     _save_settings := save_settings;
     _port := port;
     _nameservers := match nameservers with
                     | NsNone => []
                     | NsScalar ns => [ns]
                     | NsCollection nss => nss
                     end;
     _topic := topic;
     prev_lock := lck;
     _publish_vars := default ∅ publish_vars;
     data := [];
     messages := [] |}.

(** Assignments to the fields that change after construction. *)
Definition set_queue (q : option (list WorkItem)) (w : DataWriter) : DataWriter :=
  {| queue := q; _loop := _loop w; _save_settings := _save_settings w;
     _port := _port w; _nameservers := _nameservers w; _topic := _topic w;
     prev_lock := prev_lock w; _publish_vars := _publish_vars w;
     data := data w; messages := messages w |}.

Definition set_loop (b : bool) (w : DataWriter) : DataWriter :=
  {| queue := queue w; _loop := b; _save_settings := _save_settings w;
     _port := _port w; _nameservers := _nameservers w; _topic := _topic w;
     prev_lock := prev_lock w; _publish_vars := _publish_vars w;
     data := data w; messages := messages w |}.

Definition set_prev_lock (l : option lock) (w : DataWriter) : DataWriter :=
  {| queue := queue w; _loop := _loop w; _save_settings := _save_settings w;
     _port := _port w; _nameservers := _nameservers w; _topic := _topic w;
     prev_lock := l; _publish_vars := _publish_vars w;
     data := data w; messages := messages w |}.

Definition set_data (ds : list DeferredWrite) (w : DataWriter) : DataWriter :=
  {| queue := queue w; _loop := _loop w; _save_settings := _save_settings w;
     _port := _port w; _nameservers := _nameservers w; _topic := _topic w;
     prev_lock := prev_lock w; _publish_vars := _publish_vars w;
     data := ds; messages := messages w |}.

Definition set_messages (ms : list Message) (w : DataWriter) : DataWriter :=
  {| queue := queue w; _loop := _loop w; _save_settings := _save_settings w;
     _port := _port w; _nameservers := _nameservers w; _topic := _topic w;
     prev_lock := prev_lock w; _publish_vars := _publish_vars w;
     data := data w; messages := ms |}.

(** ** Computations of the worker *)

Definition outcome (A : Type) : Type := DataWriter * list event * (exn + A).

Definition M (A : Type) : Type := DataWriter → outcome A.

(** [M] is a monad (state, output and exceptions); stdpp's notations
    [x ← m; k] and [m;; k] sequence its computations. An exception ends the
    computation: what follows is not run. *)
#[export] Instance M_ret : MRet M := λ A a w, (w, [], inr a).

#[export] Instance M_bind : MBind M := λ A B k m w,
  match m w with
  | (w1, t1, inl e) => (w1, t1, inl e)
  | (w1, t1, inr a) =>
      match k a w1 with
      | (w2, t2, r) => (w2, t1 ++ t2, r)
      end
  end.

Definition raise {A} (e : exn) : M A := λ w, (w, [], inl e).
Definition emit (e : event) : M unit := λ w, (w, [e], inr tt).
Definition gets {A} (f : DataWriter → A) : M A := λ w, (w, [], inr (f w)).
Definition modify (f : DataWriter → DataWriter) : M unit := λ w, (f w, [], inr tt).

(** [d[k]] and [l[j]]: the value, or the exception. *)
Definition from_option {A} (e : exn) (o : option A) : M A :=
  match o with
  | Some a => mret a
  | None => raise e
  end.

(** [for i, x in enumerate(l): body], counting from [i]. *)
Fixpoint for_enumerate {A} (body : nat → A → M unit) (i : nat) (l : list A) : M unit :=
  match l with
  | [] => mret tt
  | x :: l' => body i x;; for_enumerate body (S i) l'
  end.

(** [for x in l: body]. *)
Fixpoint for_each {A} (body : A → M unit) (l : list A) : M unit :=
  match l with
  | [] => mret tt
  | x :: l' => body x;; for_each body l'
  end.

Definition state_of {A} (o : outcome A) : DataWriter := o.1.1.
Definition trace_of {A} (o : outcome A) : list event := o.1.2.
Definition result_of {A} (o : outcome A) : exn + A := o.2.

(** ** [DataWriter._process] and [DataWriter.run] *)

Section Worker.
Context (env : Collaborators).

(** The [try: area_data = {...} except AttributeError: area_data = None]
    block: the five entries when every attribute can be read. *)
Definition area_data_of (area : option dict) : option dict :=
  name ← getattr area "name";
  area_id ← getattr area "area_id";
  proj_id ← getattr area "proj_id";
  proj4 ← getattr area "proj4_string";
  x_size ← getattr area "x_size";
  y_size ← getattr area "y_size";
  Some ({[ "name" := name;
           "area_id" := area_id;
           "proj_id" := proj_id;
           "proj4" := proj4;
           "shape" := VTuple [x_size; y_size] ]} : dict).

(** [area_data] as a payload value. *)
Definition area_value (area_data : option dict) : value :=
  match area_data with
  | Some d => VDict d
  | None => VNone
  end.

(** The dict [to_send_fix]. *)
Definition to_send_fix (start_time : value) (fname : string)
    (area_data : option dict) (productname : string) : dict :=
  {[ "nominal_time" := start_time;
     "uid" := VStr (basename env fname);
     "uri" := VStr (abspath env fname);
     "area" := area_value area_data;
     "productname" := VStr productname ]}.

(** The topic of a message: [compose(topic, area_data)], or
    [compose(topic, {'area_id': 'satproj'})] without area data. *)
Definition compose_topic (topic : string) (area_data : option dict) : string :=
  match area_data with
  | Some d => compose env topic d
  | None => compose env topic {[ "area_id" := VStr "satproj" ]}
  end.

(** The body of [for j, fname in enumerate(fnames)]. [writers[j]] is read
    before [save_datasets] is called, [lcl[prod]] and
    [scn_metadata["start_time"]] after its handle is appended; the message
    is made last, and appended when [Message(...)] raises nothing. *)
Definition process_fname (lcl : Scene) (scn_metadata : dict)
    (prod productname : string) (writers : list string) (kwargs : dict)
    (j : nat) (fname : string) : M unit :=
  writer ← from_option IndexError (writers !! j);
  let handle := {| dw_datasets := [prod];
                   dw_file_pattern := fname;
                   dw_writer := writer;
                   dw_compute := false;
                   dw_kwargs := kwargs |} in
  emit (EvSave handle);;
  modify (λ w, set_data (data w ++ [handle]) w);;
  dset ← from_option (KeyError prod) (scene_getitem lcl prod);
  let area := ds_area dset in
  let area_data := area_data_of area in
  publish_vars ← gets _publish_vars;
  let to_send := select_dict_items env scn_metadata publish_vars in
  start_time ← from_option (KeyError "start_time") (scn_metadata !! "start_time");
  let to_send := to_send_fix start_time fname area_data productname ∪ to_send in
  topic ← gets _topic;
  match topic with
  | Some topic =>
      let msg := {| msg_subject := compose_topic topic area_data;
                    msg_type := "file";
                    msg_data := to_send |} in
      match message_error env msg with
      | Some e => raise e
      | None => modify (λ w, set_messages (messages w ++ [msg]) w)
      end
  | None => mret tt
  end.

(** The body of [for i, prod in enumerate(products)]. *)
Definition process_product (lcl : Scene) (scn_metadata : dict)
    (product_config : value) (composite_names : list string)
    (kwargs : dict) (i : nat) (prod : string) : M unit :=
  if bool_decide (prod ∉ composite_names) then mret tt
  else
    let '(fnames, productname) :=
      create_fnames env scn_metadata product_config prod in
    area_id ← from_option (KeyError "area_id") (scn_metadata !! "area_id");
    let writers := get_writer_names env product_config prod area_id in
    for_enumerate
      (process_fname lcl scn_metadata prod productname writers kwargs)
      0 fnames.

Definition _process (item : DataItem) (kwargs : dict) : M unit :=
  let lcl := scene item in
  let product_config := product_config (extra_metadata item) in
  let products := products (extra_metadata item) in
  let scn_metadata := attrs lcl in
  let composite_names := ds_name <$> datasets lcl in
  for_enumerate
    (process_product lcl scn_metadata product_config composite_names kwargs)
    0 products.

(** The settings parsed at the start of [run] and passed as [**kwargs]. *)
Definition parse_settings (save_settings : dict) : dict :=
  let compression := default (VInt 6) (save_settings !! "compression") in
  let tags := default VNone (save_settings !! "tags") in
  let fformat := default VNone (save_settings !! "fformat") in
  let gdal_options := default VNone (save_settings !! "gdal_options") in
  let blocksize := default VNone (save_settings !! "blocksize") in
  {[ "compression" := compression;
     "tags" := tags;
     "fformat" := fformat;
     "gdal_options" := gdal_options;
     "blocksize" := blocksize ]}.

(** [if self.prev_lock is not None: utils.acquire_lock(self.prev_lock)]. *)
Definition acquire : M unit :=
  l ← gets prev_lock;
  match l with
  | Some l => emit (EvAcquire l)
  | None => mret tt
  end.

(** [if self.prev_lock is not None: utils.release_locks([self.prev_lock], ...)]. *)
Definition release : M unit :=
  l ← gets prev_lock;
  match l with
  | Some l => emit (EvRelease [l])
  | None => mret tt
  end.

(** The branch [data is None]. *)
Definition flush : M unit :=
  ds ← gets data;
  match ds with
  | _ :: _ =>
      emit (EvCompute ds);;
      match compute_writer_results env ds with
      | Some e => raise e
      | None => emit (EvComputed ds)
      end;;
      msgs ← gets messages;
      for_each (λ msg, emit (EvSend (msg_str env msg))) msgs
  | [] => mret tt
  end;;
  modify (set_data []);;
  modify (set_messages []).

(** One pass through the body of [while self._loop]. The queue holds the
    items put and not yet taken; [queue.get(True, 1)] takes the first, or
    raises [queue.Empty] after the timeout, and the pass ends ([continue]). *)
Definition iteration (kwargs : dict) : M unit :=
  q ← gets queue;
  match q with
  | Some [] => emit EvEmpty
  | Some (item :: rest) =>
      modify (set_queue (Some rest));;
      emit (EvGet item);;
      acquire;;
      emit EvTaskDone;;
      match item with
      | EndOfBatch => flush
      | Data d => _process d kwargs
      end;;
      release
  | None => emit EvSleep
  end.

(** [while self._loop: ...], at most [fuel] passes. *)
Fixpoint loop (fuel : nat) (kwargs : dict) : M unit :=
  match fuel with
  | 0 => mret tt
  | S fuel' =>
      go ← gets _loop;
      if go : bool then iteration kwargs;; loop fuel' kwargs else mret tt
  end.

(** [run]: the flag, the settings ([self._save_settings.get] on [None]
    raises [AttributeError]), then the loop inside the publisher context,
    which provides [pub] and touches no field of the worker. *)
Definition run (fuel : nat) : M unit :=
  modify (set_loop true);;
  save_settings ← gets _save_settings;
  save_settings ← from_option (AttributeError "get") save_settings;
  loop fuel (parse_settings save_settings).

End Worker.

(** ** The wrapper: [class DataWriterContainer] *)

(** The thread that runs [writer.run]: inside the loop with the [kwargs]
    parsed at its start, or ended by an exception. *)
Inductive Thread :=
  | Running (kwargs : dict)
  | Crashed (e : exn).

(** The fields of the container. [_input_queue] and the writer's [queue]
    are one object at all times (both [None] at construction, assigned
    together by the setter, handed over by [_init_writer]), so its content
    is kept once, in the writer. *)
Record DataWriterContainer := {
  topic : option string;
  use_lock : bool;
  c_save_settings : option dict;
  c_topic : option string;
  c_port : Z;
  c_nameservers : NameserversArg;
  c_publish_vars : option dict;
  _prev_lock : option lock;
  writer : DataWriter;
  thread : option Thread
}.

Definition with_writer (w : DataWriter) (th : option Thread)
    (c : DataWriterContainer) : DataWriterContainer :=
  {| topic := topic c; use_lock := use_lock c;
     c_save_settings := c_save_settings c; c_topic := c_topic c;
     c_port := c_port c; c_nameservers := c_nameservers c;
     c_publish_vars := c_publish_vars c; _prev_lock := _prev_lock c;
     writer := w; thread := th |}.

Definition with_prev_lock (l : option lock)
    (c : DataWriterContainer) : DataWriterContainer :=
  {| topic := topic c; use_lock := use_lock c;
     c_save_settings := c_save_settings c; c_topic := c_topic c;
     c_port := c_port c; c_nameservers := c_nameservers c;
     c_publish_vars := c_publish_vars c; _prev_lock := l;
     writer := writer c; thread := thread c |}.

Section Container.
Context (env : Collaborators).

(** [Thread(target=writer.run).start()]: the thread sets the flag and
    parses the settings before its first pass through the loop. *)
Definition start_thread (w : DataWriter) : DataWriter * Thread :=
  match _save_settings w with
  | Some save_settings => (set_loop true w, Running (parse_settings save_settings))
  | None => (set_loop true w, Crashed (AttributeError "get"))
  end.

(** [_init_writer], given the queue object bound at that time. *)
Definition _init_writer (input_queue : option (list WorkItem))
    (c : DataWriterContainer) : DataWriterContainer :=
  let w := DataWriter_init input_queue (c_save_settings c) (c_topic c)
             (c_port c) (c_nameservers c) (_prev_lock c) (c_publish_vars c) in
  let '(w, th) := start_thread w in
  with_writer w (Some th) c.

(** [DataWriterContainer.__init__]. The class attribute [_prev_lock = None]
    is what [self._prev_lock] reads until the setter assigns it. *)
Definition DataWriterContainer_init (tpc : option string) (port : Z)
    (nameservers : NameserversArg) (save_settings : option dict)
    (use_lck : bool) (publish_vars : option dict) : DataWriterContainer :=
  _init_writer None
    {| topic := tpc; use_lock := use_lck;
       c_save_settings := save_settings; c_topic := tpc;
       c_port := port; c_nameservers := nameservers;
       c_publish_vars := publish_vars; _prev_lock := None;
       writer := DataWriter_init None save_settings tpc port nameservers
                   None publish_vars;
       thread := None |}.

(** The setter of the property [input_queue]. *)
Definition input_queue_setter (q : option (list WorkItem))
    (c : DataWriterContainer) : DataWriterContainer :=
  with_writer (set_queue q (writer c)) (thread c) c.

(** The setter of the property [prev_lock]. *)
Definition prev_lock_setter (l : option lock)
    (c : DataWriterContainer) : DataWriterContainer :=
  if use_lock c then
    with_writer (set_prev_lock l (writer c)) (thread c) (with_prev_lock l c)
  else c.

(** [stop]: the flag is cleared, the thread is joined and forgotten. *)
Definition stop (c : DataWriterContainer) : DataWriterContainer :=
  with_writer (set_loop false (writer c)) None c.

(** [restart]. *)
Definition restart (c : DataWriterContainer) : DataWriterContainer :=
  let c := if _loop (writer c) then stop c else c in
  _init_writer (queue (writer c)) c.

(** One pass of the worker thread through [while self._loop]. *)
Definition worker_pass (c : DataWriterContainer) : DataWriterContainer * list event :=
  match thread c with
  | Some (Running kwargs) =>
      if _loop (writer c) then
        match iteration env kwargs (writer c) with
        | (w, t, inr _) => (with_writer w (Some (Running kwargs)) c, t)
        | (w, t, inl e) => (with_writer w (Some (Crashed e)) c, t)
        end
      else (c, [])
  | _ => (c, [])
  end.

(** What can happen to a container, one at a time: assignments to its two
    properties, a restart, the previous stage putting an item on the bound
    queue, and the worker thread doing one pass. *)
Inductive action :=
  | AssignPrevLock (l : option lock)
  | AssignInputQueue (q : option (list WorkItem))
  | Restart
  | Put (item : WorkItem)
  | WorkerPass.

Definition perform (a : action) (c : DataWriterContainer)
    : DataWriterContainer * list event :=
  match a with
  | AssignPrevLock l => (prev_lock_setter l c, [])
  | AssignInputQueue q => (input_queue_setter q c, [])
  | Restart => (restart c, [])
  | Put item =>
      (with_writer (set_queue ((λ q, q ++ [item]) <$> queue (writer c)) (writer c))
         (thread c) c, [])
  | WorkerPass => worker_pass c
  end.

(** A history of actions: the final container and everything the worker
    threads did. *)
Fixpoint perform_all (acts : list action) (c : DataWriterContainer)
    : DataWriterContainer * list event :=
  match acts with
  | [] => (c, [])
  | a :: acts' =>
      let '(c1, t1) := perform a c in
      let '(c2, t2) := perform_all acts' c1 in
      (c2, t1 ++ t2)
  end.

End Container.

(** ** Notions used to state the properties *)

(** The worker with [D] appended to [self.data] and [Ms] to [self.messages]. *)
Definition extend (D : list DeferredWrite) (Ms : list Message)
    (w : DataWriter) : DataWriter :=
  set_messages (messages w ++ Ms) (set_data (data w ++ D) w).

(** The (datasets, file) arguments of a staged write, and of the write
    staged for a (product, filename) pair. *)
Definition write_pair (dw : DeferredWrite) : list string * string :=
  (dw_datasets dw, dw_file_pattern dw).

Definition call_of (p : string * string) : list string * string := ([p.1], p.2).

(** The deferred writes staged in a trace, the wires sent, in order. *)
Definition saves (t : list event) : list DeferredWrite :=
  omap (λ e, match e with EvSave d => Some d | _ => None end) t.

Definition sends (t : list event) : list string :=
  omap (λ e, match e with EvSend s => Some s | _ => None end) t.

Definition is_lock_event (e : event) : Prop :=
  match e with
  | EvAcquire _ | EvRelease _ => True
  | _ => False
  end.

Definition is_send (e : event) : Prop :=
  match e with
  | EvSend _ => True
  | _ => False
  end.

(** The lock events of one pass of a worker: before and after the item. *)
Definition acquire_events (w : DataWriter) : list event :=
  match prev_lock w with
  | Some l => [EvAcquire l]
  | None => []
  end.

Definition release_events (w : DataWriter) : list event :=
  match prev_lock w with
  | Some l => [EvRelease [l]]
  | None => []
  end.

(** The sends of a flush: one per recorded message, in order. *)
Definition send_events (env : Collaborators) (msgs : list Message) : list event :=
  (λ msg, EvSend (msg_str env msg)) <$> msgs.

(** What a flush does once the sentinel is taken and the lock acquired,
    with [A] in [self.data] and [B] in [self.messages]. *)
Definition flush_events (env : Collaborators) (w : DataWriter)
    (A : list DeferredWrite) (B : list Message) : list event :=
  match A with
  | [] => []
  | _ :: _ => EvCompute A :: EvComputed A :: send_events env B
  end ++ release_events w.

(** Any worker at the start of a batch: empty accumulator, running loop,
    and on the queue the data items of the batch, the sentinel, and
    whatever follows. *)
Definition batch_start (w : DataWriter) (items : list DataItem)
    (rest : list WorkItem) : DataWriter :=
  set_queue (Some ((Data <$> items) ++ EndOfBatch :: rest))
    (set_loop true (set_messages [] (set_data [] w))).

Section Staging.
Context (env : Collaborators).

(** The (product, filename) pairs of a data item: for every product of
    the item that the scene has, in order, the file names made for it. *)
Definition staged_pairs (item : DataItem) : list (string * string) :=
  prod ← products (extra_metadata item);
  if bool_decide (prod ∈ ds_name <$> datasets (scene item)) then
    (λ fname, (prod, fname)) <$>
      (create_fnames env (attrs (scene item))
         (product_config (extra_metadata item)) prod).1
  else [].

(** The inputs on which [_process] raises nothing: for every product that
    the scene has, ["area_id"] is in the metadata, there is a writer name
    for every file name, and ["start_time"] is in the metadata when there
    is a file name. *)
Definition product_ok (lcl : Scene) (cfg : value) (prod : string) : bool :=
  match attrs lcl !! "area_id" with
  | Some area_id =>
      let fnames := (create_fnames env (attrs lcl) cfg prod).1 in
      bool_decide (length fnames ≤ length (get_writer_names env cfg prod area_id))
      && (bool_decide (fnames = []) || bool_decide (is_Some (attrs lcl !! "start_time")))
  | None => false
  end.

Definition item_ok (item : DataItem) : bool :=
  forallb
    (λ prod, bool_decide (prod ∉ ds_name <$> datasets (scene item))
             || product_ok (scene item) (product_config (extra_metadata item)) prod)
    (products (extra_metadata item)).

(** A write staged for [item] with the options [kwargs]. *)
Definition write_for (item : DataItem) (kwargs : dict) (dw : DeferredWrite) : Prop :=
  dw_kwargs dw = kwargs ∧ dw_compute dw = false ∧
  ∃ prod fname, (prod, fname) ∈ staged_pairs item ∧ write_pair dw = ([prod], fname).

(** A message recorded for [item] by a worker with that topic template
    and those [publish_vars]. *)
Definition message_for (item : DataItem) (tpc : option string) (pv : dict)
    (msg : Message) : Prop :=
  ∃ prod fname topic start_time dset,
    (prod, fname) ∈ staged_pairs item ∧
    tpc = Some topic ∧
    attrs (scene item) !! "start_time" = Some start_time ∧
    scene_getitem (scene item) prod = Some dset ∧
    msg = {| msg_subject := compose_topic env topic (area_data_of (ds_area dset));
             msg_type := "file";
             msg_data :=
               to_send_fix env start_time fname (area_data_of (ds_area dset))
                 (create_fnames env (attrs (scene item))
                    (product_config (extra_metadata item)) prod).2
               ∪ select_dict_items env (attrs (scene item)) pv |}.

(** What a piece of [_process] does to a worker [w] with topic template
    [tpc]: it appends writes [D], each announced by its [EvSave] and
    satisfying [P], and messages [Ms] satisfying [Q]; no message without a
    topic template and one per write with one when it ends normally; the
    writes are those of [expected] when it ends normally, and it ends
    normally when [ok]. *)
Definition staged (tpc : option string) (P : DeferredWrite → Prop)
    (Q : Message → Prop) (ok : Prop) (expected : list (string * string))
    (w : DataWriter) (o : outcome unit) : Prop :=
  ∃ D Ms,
    state_of o = extend D Ms w ∧
    trace_of o = EvSave <$> D ∧
    Forall P D ∧ Forall Q Ms ∧
    (tpc = None → Ms = []) ∧
    (is_Some tpc → result_of o = inr tt → length Ms = length D) ∧
    (result_of o = inr tt → write_pair <$> D = call_of <$> expected) ∧
    (ok → result_of o = inr tt).

End Staging.

(** The options that [run] reads from the save settings. *)
Definition recognized_options : list string :=
  ["compression"; "tags"; "fformat"; "gdal_options"; "blocksize"].


Definition fixed_fields : list string :=
  ["nominal_time"; "uid"; "uri"; "area"; "productname"].

(** A data item with other products. *)
Definition with_products (prods : list string) (item : DataItem) : DataItem :=
  {| scene := scene item;
     extra_metadata := {| product_config := product_config (extra_metadata item);
                          products := prods |} |}.

(** The fields of a worker that no pass assigns. *)
Definition same_configuration (w w' : DataWriter) : Prop :=
  _loop w' = _loop w ∧ _save_settings w' = _save_settings w ∧
  _topic w' = _topic w ∧ prev_lock w' = prev_lock w ∧
  _publish_vars w' = _publish_vars w.

(** ** A small pipeline, for concrete runs

    One file per product, named after it and written by the default
    writer; the topic template gets the area identifier appended; paths
    are relative to [/data]; a message needs a subject that is not empty. *)

Definition demo_collaborators (failure : option exn) : Collaborators :=
  {| create_fnames := λ _ _ prod, ([prod +:+ ".tif"], prod);
     get_writer_names := λ _ _ _, ["geotiff"];
     select_dict_items := λ metadata _, metadata;
     compose := λ topic fields,
       match fields !! "area_id" with
       | Some (VStr area_id) => topic +:+ "/" +:+ area_id
       | _ => topic
       end;
     basename := λ fname, fname;
     abspath := λ fname, "/data/" +:+ fname;
     compute_writer_results := λ _, failure;
     message_error := λ msg,
       match msg_subject msg with
       | "" => Some (MessageError "Invalid subject")
       | _ => None
       end;
     msg_str := msg_subject |}.

(** The delegate completes every batch, or fails every batch. *)
Definition demo_env : Collaborators := demo_collaborators None.

Definition failing_env : Collaborators :=
  demo_collaborators (Some (WriteError "No space left on device")).

(** A scene that has the composite ["A"] only, without area. *)
Definition demo_scene : Scene :=
  {| attrs := {[ "area_id" := VStr "euro4"; "start_time" := VInt 1200 ]};
     datasets := [ {| ds_name := "A"; ds_area := None |} ] |}.

Definition demo_item (prods : list string) : DataItem :=
  {| scene := demo_scene;
     extra_metadata := {| product_config := VNone; products := prods |} |}.

(** Workers on a queue, with or without topic template and lock. *)
Definition demo_writer (tpc : option string) (lck : option lock)
    (q : list WorkItem) : DataWriter :=
  DataWriter_init (Some q) (Some ∅) tpc 0 NsNone lck None.

(** A container that uses no lock and holds none, nor does its worker. *)
Definition lock_free (c : DataWriterContainer) : Prop :=
  use_lock c = false ∧ _prev_lock c = None ∧ prev_lock (writer c) = None.

(** The locks acquired and released in a trace, in order. *)
Definition acquired (t : list event) : list lock :=
  omap (λ e, match e with EvAcquire l => Some l | _ => None end) t.

Definition released (t : list event) : list lock :=
  t ≫= (λ e, match e with EvRelease ls => ls | _ => [] end).

(** A scene like [demo_scene] whose metadata lack the start time, and an
    item for its product. *)
Definition undated_item : DataItem :=
  {| scene := {| attrs := {[ "area_id" := VStr "euro4" ]};
                 datasets := [ {| ds_name := "A"; ds_area := None |} ] |};
     extra_metadata := {| product_config := VNone; products := ["A"] |} |}.

(** The write staged for ["A"] in the small pipeline with empty save
    settings. *)
Definition demo_write : DeferredWrite :=
  {| dw_datasets := ["A"];
     dw_file_pattern := "A.tif";
     dw_writer := "geotiff";
     dw_compute := false;
     dw_kwargs := parse_settings ∅ |}.

(** ** What a data item amounts to

    The writes and the messages of a data item as lists: for every product
    that the scene has, in order, the j-th file name with the j-th writer
    name, and the message of every file name. *)

Section Amounts.
Context (env : Collaborators).

Definition file_write (prod : string) (kwargs : dict)
    (fname writer : string) : DeferredWrite :=
  {| dw_datasets := [prod];
     dw_file_pattern := fname;
     dw_writer := writer;
     dw_compute := false;
     dw_kwargs := kwargs |}.

Definition file_message (scn_metadata : dict) (pv : dict) (topic : string)
    (start_time : value) (dset : Dataset) (productname fname : string) : Message :=
  {| msg_subject := compose_topic env topic (area_data_of (ds_area dset));
     msg_type := "file";
     msg_data :=
       to_send_fix env start_time fname (area_data_of (ds_area dset)) productname
       ∪ select_dict_items env scn_metadata pv |}.

Definition product_writes (lcl : Scene) (cfg : value) (kwargs : dict)
    (prod : string) : list DeferredWrite :=
  match attrs lcl !! "area_id" with
  | Some area_id =>
      zip_with (file_write prod kwargs)
        (create_fnames env (attrs lcl) cfg prod).1
        (get_writer_names env cfg prod area_id)
  | None => []
  end.

Definition product_messages (lcl : Scene) (cfg : value) (tpc : option string)
    (pv : dict) (prod : string) : list Message :=
  match tpc, scene_getitem lcl prod, attrs lcl !! "start_time" with
  | Some topic, Some dset, Some start_time =>
      file_message (attrs lcl) pv topic start_time dset
        (create_fnames env (attrs lcl) cfg prod).2
      <$> (create_fnames env (attrs lcl) cfg prod).1
  | _, _, _ => []
  end.

Definition item_writes (kwargs : dict) (item : DataItem) : list DeferredWrite :=
  prod ← products (extra_metadata item);
  if bool_decide (prod ∈ ds_name <$> datasets (scene item)) then
    product_writes (scene item) (product_config (extra_metadata item)) kwargs prod
  else [].

Definition item_messages (tpc : option string) (pv : dict)
    (item : DataItem) : list Message :=
  prod ← products (extra_metadata item);
  if bool_decide (prod ∈ ds_name <$> datasets (scene item)) then
    product_messages (scene item) (product_config (extra_metadata item)) tpc pv prod
  else [].

(** The events of the pass that takes a data item and stages [writes], and
    of the passes of a whole batch that goes well. *)
Definition pass_events (w : DataWriter) (item : DataItem)
    (writes : list DeferredWrite) : list event :=
  EvGet (Data item) :: acquire_events w ++
    EvTaskDone :: (EvSave <$> writes) ++ release_events w.

Definition batch_events (kwargs : dict) (w : DataWriter)
    (items : list DataItem) : list event :=
  (item ← items; pass_events w item (item_writes kwargs item)) ++
  EvGet EndOfBatch :: acquire_events w ++
    EvTaskDone ::
    flush_events env w (data w ++ (items ≫= item_writes kwargs))
      (messages w ++ (items ≫= item_messages (_topic w) (_publish_vars w))).

End Amounts.

(** The messages that posttroll accepts, and the items all of whose
    messages it accepts, for a topic template and [publish_vars]. *)
Definition accepted (env : Collaborators) (msg : Message) : bool :=
  match message_error env msg with
  | None => true
  | Some _ => false
  end.

Definition messages_ok (env : Collaborators) (tpc : option string) (pv : dict)
    (item : DataItem) : bool :=
  forallb (accepted env) (item_messages env tpc pv item).

(** The items taken from the queue in a trace, in order, and one mark per
    [task_done]. *)
Definition taken (t : list event) : list WorkItem :=
  omap (λ e, match e with EvGet item => Some item | _ => None end) t.

Definition task_dones (t : list event) : list unit :=
  omap (λ e, match e with EvTaskDone => Some tt | _ => None end) t.

(** The events of a flush: the write delegate and the publisher. *)
Definition is_flush_event (e : event) : Prop :=
  match e with
  | EvCompute _ | EvComputed _ | EvSend _ => True
  | _ => False
  end.

(** A pipeline that makes two files for a product and knows one writer,
    an item whose scene metadata lack the area identifier, and a scene
    whose composite has a full area. *)
Definition two_files_env : Collaborators :=
  {| create_fnames := λ _ _ prod, ([prod +:+ ".tif"; prod +:+ ".png"], prod);
     get_writer_names := λ _ _ _, ["geotiff"];
     select_dict_items := λ metadata _, metadata;
     compose := λ topic _, topic;
     basename := λ fname, fname;
     abspath := λ fname, "/data/" +:+ fname;
     compute_writer_results := λ _, None;
     message_error := λ msg,
       match msg_subject msg with
       | "" => Some (MessageError "Invalid subject")
       | _ => None
       end;
     msg_str := msg_subject |}.

Definition unlocated_item : DataItem :=
  {| scene := {| attrs := {[ "start_time" := VInt 1200 ]};
                 datasets := [ {| ds_name := "A"; ds_area := None |} ] |};
     extra_metadata := {| product_config := VNone; products := ["B"; "A"] |} |}.

Definition euro4_area : dict :=
  {[ "name" := VStr "Europe 4 km"; "area_id" := VStr "euro4";
     "proj_id" := VStr "ps60n"; "proj4_string" := VStr "+proj=stere";
     "x_size" := VInt 1024; "y_size" := VInt 768 ]}.

Definition located_item : DataItem :=
  {| scene := {| attrs := {[ "area_id" := VStr "euro4"; "start_time" := VInt 1200 ]};
                 datasets := [ {| ds_name := "A"; ds_area := Some euro4_area |} ] |};
     extra_metadata := {| product_config := VNone; products := ["A"] |} |}.

(** An item whose scene metadata hold ["uid"] and ["productname"]
    themselves, and a pipeline like the small one that composes every
    topic to the template itself. *)
Definition clashing_item : DataItem :=
  {| scene := {| attrs := {[ "area_id" := VStr "euro4"; "start_time" := VInt 1200;
                             "uid" := VStr "stale.tif";
                             "productname" := VStr "stale" ]};
                 datasets := [ {| ds_name := "A"; ds_area := None |} ] |};
     extra_metadata := {| product_config := VNone; products := ["A"] |} |}.


(** ** Lemmas on records, traces and computations *)

Lemma extend_nil w : extend [] [] w = w.
Proof. destruct w; unfold extend, set_messages, set_data; simpl. by rewrite !app_nil_r. Qed.

Lemma extend_data D w : extend D [] w = set_data (data w ++ D) w.
Proof. destruct w; unfold extend, set_messages, set_data; simpl. by rewrite app_nil_r. Qed.

Lemma extend_extend D1 Ms1 D2 Ms2 w :
  extend D2 Ms2 (extend D1 Ms1 w) = extend (D1 ++ D2) (Ms1 ++ Ms2) w.
Proof. unfold extend, set_messages, set_data; simpl. by rewrite !app_assoc. Qed.

Lemma saves_app t1 t2 : saves (t1 ++ t2) = saves t1 ++ saves t2.
Proof. apply omap_app. Qed.

Lemma sends_app t1 t2 : sends (t1 ++ t2) = sends t1 ++ sends t2.
Proof. apply omap_app. Qed.

Lemma saves_EvSave D : saves (EvSave <$> D) = D.
Proof. induction D as [|d D IH]; simpl; [done | by f_equal]. Qed.

Lemma sends_EvSave D : sends (EvSave <$> D) = [].
Proof. induction D as [|d D IH]; simpl; done. Qed.

Lemma bind_mret {A B} (a : A) (k : A → M B) w : (mret a ≫= k) w = k a w.
Proof. unfold mbind, M_bind, mret, M_ret. by destruct (k a w) as [[w2 t2] r]. Qed.

Lemma bind_gets {A B} (f : DataWriter → A) (k : A → M B) w :
  (gets f ≫= k) w = k (f w) w.
Proof. unfold mbind, M_bind, gets. by destruct (k (f w) w) as [[w2 t2] r]. Qed.

Lemma bind_mret_r (m : M unit) w : (m;; mret tt) w = m w.
Proof.
  unfold mbind, M_bind, mret, M_ret.
  destruct (m w) as [[w1 t1] [e|[]]]; [done|]. by rewrite app_nil_r.
Qed.

Lemma bind_singleton {A B} (f : A → B) (l : list A) : l ≫= (λ x, [f x]) = f <$> l.
Proof. induction l as [|a l IH]; simpl; [done | by f_equal]. Qed.

Lemma scene_getitem_is_Some lcl prod :
  prod ∈ ds_name <$> datasets lcl → is_Some (scene_getitem lcl prod).
Proof.
  intros Hin. apply list_elem_of_fmap in Hin as (d & -> & Hd).
  unfold scene_getitem.
  destruct (list_find_elem_of (λ d', ds_name d' = ds_name d) (datasets lcl) d)
    as [[k d'] Hfind]; [done.. |].
  rewrite Hfind. by eexists.
Qed.


Section StagingLemmas.
Context (env : Collaborators).

Lemma staged_mret tpc P Q w : staged tpc P Q True [] w ((mret tt : M unit) w).
Proof.
  exists [], []. rewrite extend_nil. repeat split; auto.
Qed.

Lemma staged_weaken tpc (P P' : DeferredWrite → Prop) (Q Q' : Message → Prop)
    (ok ok' : Prop) expected w o :
  (∀ d, P d → P' d) → (∀ m, Q m → Q' m) → (ok' → ok) →
  staged tpc P Q ok expected w o → staged tpc P' Q' ok' expected w o.
Proof.
  intros HP HQ Hok (D & Ms & ? & ? & HD & HMs & ? & ? & ? & ?).
  exists D, Ms. repeat split; auto.
  - eapply Forall_impl; eauto.
  - eapply Forall_impl; eauto.
Qed.

Lemma staged_bind tpc P Q ok1 ok2 e1 e2 (m k : M unit) w :
  staged tpc P Q ok1 e1 w (m w) →
  (∀ w', _topic w' = _topic w → _publish_vars w' = _publish_vars w →
         staged tpc P Q ok2 e2 w' (k w')) →
  staged tpc P Q (ok1 ∧ ok2) (e1 ++ e2) w ((m;; k) w).
Proof.
  intros (D1 & Ms1 & Hs1 & Ht1 & HD1 & HM1 & Hn1 & Hl1 & He1 & Ho1) Hk.
  unfold mbind, M_bind.
  destruct (m w) as [[w1 t1] [e|[]]]; unfold state_of, trace_of, result_of in *;
    simpl in *.
  - exists D1, Ms1. repeat split; auto; try done.
    intros [H1 _]. by apply Ho1.
  - destruct (Hk w1) as (D2 & Ms2 & Hs2 & Ht2 & HD2 & HM2 & Hn2 & Hl2 & He2 & Ho2);
      [by subst w1 | by subst w1 |].
    destruct (k w1) as [[w2 t2] r]; unfold state_of, trace_of, result_of in *;
      simpl in *; subst.
    exists (D1 ++ D2), (Ms1 ++ Ms2). rewrite extend_extend.
    repeat split; auto.
    + by rewrite fmap_app.
    + by apply Forall_app.
    + by apply Forall_app.
    + intros ?. rewrite Hn1, Hn2; auto.
    + intros ? ?. rewrite !length_app, Hl1, Hl2; auto.
    + intros ?. rewrite !fmap_app, He1, He2; auto.
    + intros [? ?]; auto.
Qed.

Lemma for_enumerate_staged {A} tpc pv P Q (ok : nat → A → Prop)
    (expected : A → list (string * string)) (body : nat → A → M unit) (l : list A) :
  (∀ i x w, x ∈ l → _topic w = tpc → _publish_vars w = pv →
            staged tpc P Q (ok i x) (expected x) w (body i x w)) →
  ∀ i w, _topic w = tpc → _publish_vars w = pv →
    staged tpc P Q (∀ k x, l !! k = Some x → ok (i + k) x) (l ≫= expected) w
      (for_enumerate body i l w).
Proof.
  induction l as [|a l IH]; intros Hbody i w Ht Hp; simpl.
  - eapply staged_weaken; [..|apply (staged_mret tpc P Q)]; auto.
  - eapply staged_weaken; [| |
      |apply (staged_bind tpc P Q (ok i a)
                (∀ k x, l !! k = Some x → ok (S i + k) x))]; auto.
    + intros Hall. split.
      * specialize (Hall 0 a eq_refl). by rewrite Nat.add_0_r in Hall.
      * intros k x Hk. specialize (Hall (S k) x Hk).
        by rewrite Nat.add_succ_r in Hall.
    + apply Hbody; auto. left.
    + intros w' Ht' Hp'. apply IH; [|congruence..].
      intros j x w0 Hx. apply Hbody. by right.
Qed.

(** One file of one product: the write and its message. *)
Lemma process_fname_staged lcl scn_metadata prod productname writers kwargs
    j fname tpc pv w :
  _topic w = tpc → _publish_vars w = pv →
  staged tpc
    (λ dw, dw_kwargs dw = kwargs ∧ dw_compute dw = false ∧
           write_pair dw = ([prod], fname))
    (λ msg, ∃ topic start_time dset,
       tpc = Some topic ∧ scn_metadata !! "start_time" = Some start_time ∧
       scene_getitem lcl prod = Some dset ∧
       msg = {| msg_subject := compose_topic env topic (area_data_of (ds_area dset));
                msg_type := "file";
                msg_data :=
                  to_send_fix env start_time fname
                    (area_data_of (ds_area dset)) productname
                  ∪ select_dict_items env scn_metadata pv |})
    (is_Some (writers !! j) ∧ is_Some (scene_getitem lcl prod) ∧
     is_Some (scn_metadata !! "start_time") ∧
     ∀ topic start_time dset,
       tpc = Some topic → scn_metadata !! "start_time" = Some start_time →
       scene_getitem lcl prod = Some dset →
       message_error env
         (file_message env scn_metadata pv topic start_time dset productname fname)
       = None)
    [(prod, fname)] w
    (process_fname env lcl scn_metadata prod productname writers kwargs j fname w).
Proof.
  intros Ht Hp. unfold process_fname, staged.
  unfold mbind, M_bind, from_option, emit, modify, gets, raise, mret, M_ret.
  unfold state_of, trace_of, result_of.
  destruct (writers !! j) as [writer|] eqn:Hw; simpl; last first.
  { exists [], []. rewrite extend_nil. repeat split; auto; try done.
    by intros ([? ?] & _). }
  destruct (scene_getitem lcl prod) as [dset|] eqn:Hds; simpl; last first.
  { eexists [_], []. rewrite extend_data. repeat split; auto; try done.
    by intros (_ & [? ?] & _). }
  destruct (scn_metadata !! "start_time") as [start_time|] eqn:Hst; simpl; last first.
  { eexists [_], []. rewrite extend_data. repeat split; auto; try done.
    by intros (_ & _ & [? ?]). }
  rewrite Ht, Hp. destruct tpc as [topic|]; simpl.
  - fold (file_message env scn_metadata pv topic start_time dset productname fname).
    destruct (message_error env _) as [e|] eqn:Hme; simpl.
    + eexists [_], []. rewrite extend_data. repeat split; auto; try done.
      intros (_ & _ & _ & Hacc).
      by rewrite (Hacc topic start_time dset) in Hme.
    + eexists [_], [_]. repeat split; auto; try done.
      repeat constructor. by exists topic, start_time, dset.
  - eexists [_], []. rewrite extend_data. repeat split; auto; done.
Qed.

Lemma elem_of_staged_pairs item prod fname :
  prod ∈ products (extra_metadata item) →
  prod ∈ ds_name <$> datasets (scene item) →
  fname ∈ (create_fnames env (attrs (scene item))
             (product_config (extra_metadata item)) prod).1 →
  (prod, fname) ∈ staged_pairs env item.
Proof.
  intros Hprod Hin Hf. unfold staged_pairs.
  apply list_elem_of_bind. exists prod. split; [|done].
  rewrite bool_decide_eq_true_2 by done.
  apply list_elem_of_fmap. by exists fname.
Qed.

(** One product of a data item. *)
Lemma process_product_staged item kwargs tpc pv i prod w :
  prod ∈ products (extra_metadata item) →
  _topic w = tpc → _publish_vars w = pv →
  staged tpc (write_for env item kwargs) (message_for env item tpc pv)
    (bool_decide (prod ∉ ds_name <$> datasets (scene item))
     || product_ok env (scene item) (product_config (extra_metadata item)) prod = true
     ∧ Forall (λ msg, accepted env msg = true)
         (if bool_decide (prod ∈ ds_name <$> datasets (scene item)) then
            product_messages env (scene item) (product_config (extra_metadata item))
              tpc pv prod
          else []))
    (if bool_decide (prod ∈ ds_name <$> datasets (scene item)) then
       (λ fname, (prod, fname)) <$>
         (create_fnames env (attrs (scene item))
            (product_config (extra_metadata item)) prod).1
     else [])
    w
    (process_product env (scene item) (attrs (scene item))
       (product_config (extra_metadata item))
       (ds_name <$> datasets (scene item)) kwargs i prod w).
Proof.
  intros Hprod Ht Hp. unfold process_product, product_ok, product_messages.
  set (lcl := scene item). set (cfg := product_config (extra_metadata item)).
  set (names := ds_name <$> datasets lcl).
  destruct (decide (prod ∈ names)) as [Hin|Hout].
  2:{ rewrite (bool_decide_eq_true_2 (prod ∉ names)), (bool_decide_eq_false_2 (prod ∈ names)) by done.
      eapply staged_weaken; [..|apply (staged_mret tpc (write_for env item kwargs)
                                         (message_for env item tpc pv))]; auto. }
  rewrite (bool_decide_eq_false_2 (prod ∉ names)), (bool_decide_eq_true_2 (prod ∈ names))
    by auto.
  destruct (create_fnames env (attrs lcl) cfg prod) as [fnames productname] eqn:Hcf.
  destruct (attrs lcl !! "area_id") as [area_id|] eqn:Haid; simpl.
  2:{ exists [], []. rewrite extend_nil. repeat split; try done. by intros [? _]. }
  rewrite bind_mret.
  pose proof (elem_of_staged_pairs item prod) as Hpairs.
  fold lcl cfg names in Hpairs. rewrite Hcf in Hpairs. simpl in Hpairs.
  set (writers := get_writer_names env cfg prod area_id).
  eapply staged_weaken;
    [| | |apply (for_enumerate_staged tpc pv
                   (write_for env item kwargs) (message_for env item tpc pv)
                   (λ j (fname : string),
                      is_Some (writers !! j) ∧ is_Some (scene_getitem lcl prod) ∧
                      is_Some (attrs lcl !! "start_time") ∧
                      ∀ topic start_time dset,
                        tpc = Some topic →
                        attrs lcl !! "start_time" = Some start_time →
                        scene_getitem lcl prod = Some dset →
                        message_error env
                          (file_message env (attrs lcl) pv topic start_time dset
                             productname fname) = None)
                   (λ fname, [(prod, fname)])) ]; auto.
  - intros [[Hlen Hst%orb_prop]%andb_prop Hacc] k x Hk.
    apply bool_decide_eq_true in Hlen.
    split; [|split; [|split]].
    + apply lookup_lt_is_Some. apply lookup_lt_Some in Hk. simpl. lia.
    + by apply scene_getitem_is_Some.
    + destruct Hst as [Hnil%bool_decide_eq_true|?%bool_decide_eq_true]; [|done].
      by subst fnames.
    + intros topic start_time dset -> Hs Hd. simpl in Hacc. rewrite Hd, Hs in Hacc.
      rewrite Forall_fmap, Forall_forall in Hacc.
      specialize (Hacc x (list_elem_of_lookup_2 _ _ _ Hk)). simpl in Hacc.
      unfold accepted in Hacc. by destruct (message_error env _).
  - intros j fname w' Hfn Ht' Hp'.
    eapply staged_weaken; [| | |apply process_fname_staged; done]; auto.
    + intros dw (? & ? & ?). repeat split; auto. exists prod, fname. auto.
    + intros msg (topic & start_time & dset & ? & ? & ? & ->).
      exists prod, fname, topic, start_time, dset.
      fold lcl cfg. rewrite Hcf. auto 10.
Qed.

(** A whole data item. *)
Lemma _process_staged item kwargs w :
  staged (_topic w) (write_for env item kwargs)
    (message_for env item (_topic w) (_publish_vars w))
    (item_ok env item = true ∧
     messages_ok env (_topic w) (_publish_vars w) item = true)
    (staged_pairs env item) w
    (_process env item kwargs w).
Proof.
  unfold _process, staged_pairs, item_ok, messages_ok, item_messages.
  eapply staged_weaken;
    [| | |apply (for_enumerate_staged (_topic w) (_publish_vars w)
                   (write_for env item kwargs)
                   (message_for env item (_topic w) (_publish_vars w))
                   (λ (_ : nat) prod,
                      bool_decide (prod ∉ ds_name <$> datasets (scene item))
                      || product_ok env (scene item)
                           (product_config (extra_metadata item)) prod = true
                      ∧ Forall (λ msg, accepted env msg = true)
                          (if bool_decide (prod ∈ ds_name <$> datasets (scene item))
                           then product_messages env (scene item)
                                  (product_config (extra_metadata item))
                                  (_topic w) (_publish_vars w) prod
                           else [])))];
    auto.
  - intros [Hall Hacc] k prod Hk. rewrite forallb_forall in Hall, Hacc.
    pose proof (list_elem_of_lookup_2 _ _ _ Hk) as Hin. split.
    + apply Hall. by apply list_elem_of_In.
    + apply Forall_forall. intros msg Hmsg. apply Hacc, list_elem_of_In.
      apply list_elem_of_bind. by exists prod.
  - intros i prod w' Hprod Ht Hp. by apply process_product_staged.
Qed.

(** Without a topic template an item has no message. *)
Lemma item_messages_no_topic pv item : item_messages env None pv item = [].
Proof.
  unfold item_messages.
  induction (products (extra_metadata item)) as [|prod prods IH]; [done|].
  rewrite bind_cons, IH. by destruct (bool_decide _).
Qed.

Lemma messages_ok_no_topic pv item : messages_ok env None pv item = true.
Proof. unfold messages_ok. by rewrite item_messages_no_topic. Qed.

Lemma forallb_messages_ok_no_topic pv items :
  forallb (messages_ok env None pv) items = true.
Proof.
  induction items as [|item items IH]; [done|].
  simpl. by rewrite messages_ok_no_topic, IH.
Qed.

End StagingLemmas.

(** ** One pass through the loop *)

Section Iteration.
Context (env : Collaborators).

Lemma for_each_send msgs w :
  for_each (λ msg, emit (EvSend (msg_str env msg))) msgs w
  = (w, send_events env msgs, inr tt).
Proof.
  induction msgs as [|m msgs IH]; simpl; [done|].
  unfold mbind, M_bind. unfold emit at 1. by rewrite IH.
Qed.

(** The pass that takes the sentinel. *)
Lemma iteration_sentinel kwargs w rest :
  queue w = Some (EndOfBatch :: rest) →
  iteration env kwargs w =
    match data w with
    | [] =>
        (set_messages [] (set_data [] (set_queue (Some rest) w)),
         EvGet EndOfBatch :: acquire_events w ++ EvTaskDone :: release_events w,
         inr tt)
    | _ :: _ =>
        match compute_writer_results env (data w) with
        | None =>
            (set_messages [] (set_data [] (set_queue (Some rest) w)),
             EvGet EndOfBatch :: acquire_events w ++
               EvTaskDone :: EvCompute (data w) :: EvComputed (data w) ::
               send_events env (messages w) ++ release_events w,
             inr tt)
        | Some e =>
            (set_queue (Some rest) w,
             EvGet EndOfBatch :: acquire_events w ++ [EvTaskDone; EvCompute (data w)],
             inl e)
        end
    end.
Proof.
  intros Hq. destruct w as [q lp ss port ns tp pl pv D Ms]. simpl in Hq. subst q.
  unfold iteration, flush, acquire, release, acquire_events, release_events.
  unfold mbind, M_bind, gets, modify, mret, M_ret, raise, set_queue, set_data,
    set_messages.
  simpl. destruct pl as [l|], D as [|d ds]; simpl; try done;
    (destruct (compute_writer_results env (d :: ds)); simpl; [done|]);
    rewrite for_each_send; simpl; by rewrite app_nil_r.
Qed.

(** The pass that takes a data item. *)
Lemma iteration_data kwargs w d rest :
  queue w = Some (Data d :: rest) →
  iteration env kwargs w =
    let o := _process env d kwargs (set_queue (Some rest) w) in
    (state_of o,
     EvGet (Data d) :: acquire_events w ++ EvTaskDone :: trace_of o ++
       match result_of o with
       | inr _ => release_events w
       | inl _ => []
       end,
     result_of o).
Proof.
  intros Hq.
  destruct (_process_staged env d kwargs (set_queue (Some rest) w))
    as (D & Ms & Hst & _).
  unfold iteration, acquire, release, acquire_events, release_events.
  unfold mbind, M_bind, gets, modify, emit, mret, M_ret.
  rewrite Hq. simpl.
  destruct (_process env d kwargs (set_queue (Some rest) w)) as [[w1 t1] r] eqn:Hp.
  unfold state_of, trace_of, result_of in *. simpl in *. subst w1.
  destruct (prev_lock w) as [l|] eqn:Hl, r as [e|[]]; simpl;
    rewrite Hp; simpl; rewrite ?Hl; simpl; by rewrite ?app_nil_r.
Qed.

(** The passes that take nothing. *)
Lemma iteration_empty kwargs w :
  queue w = Some [] → iteration env kwargs w = (w, [EvEmpty], inr tt).
Proof. intros Hq. unfold iteration, mbind, M_bind, gets. by rewrite Hq. Qed.

Lemma iteration_unbound kwargs w :
  queue w = None → iteration env kwargs w = (w, [EvSleep], inr tt).
Proof. intros Hq. unfold iteration, mbind, M_bind, gets. by rewrite Hq. Qed.

End Iteration.

(** ** A batch: data items, then the sentinel *)

Section Batch.
Context (env : Collaborators).

Lemma loop_S n kwargs w :
  _loop w = true →
  loop env (S n) kwargs w = (iteration env kwargs;; loop env n kwargs) w.
Proof. intros Hl. simpl. by rewrite bind_gets, Hl. Qed.

Lemma loop_1 kwargs w :
  _loop w = true → loop env 1 kwargs w = iteration env kwargs w.
Proof. intros Hl. rewrite loop_S by done. simpl. apply bind_mret_r. Qed.

Lemma sends_acquire_events w : sends (acquire_events w) = [].
Proof. unfold acquire_events. by destruct (prev_lock w). Qed.

Lemma sends_release_events w : sends (release_events w) = [].
Proof. unfold release_events. by destruct (prev_lock w). Qed.

Lemma saves_acquire_events w : saves (acquire_events w) = [].
Proof. unfold acquire_events. by destruct (prev_lock w). Qed.

Lemma saves_release_events w : saves (release_events w) = [].
Proof. unfold release_events. by destruct (prev_lock w). Qed.

Lemma sends_header item w :
  sends (EvGet item :: acquire_events w ++ [EvTaskDone]) = [].
Proof. unfold acquire_events. by destruct (prev_lock w). Qed.

Lemma saves_header item w :
  saves (EvGet item :: acquire_events w ++ [EvTaskDone]) = [].
Proof. unfold acquire_events. by destruct (prev_lock w). Qed.

Lemma item_pass_split item w D tail :
  EvGet item :: acquire_events w ++ EvTaskDone :: (EvSave <$> D) ++ tail
  = (EvGet item :: acquire_events w ++ [EvTaskDone]) ++ (EvSave <$> D) ++ tail.
Proof. simpl. by rewrite <- app_assoc. Qed.

Lemma sends_item_pass item w D tail :
  sends (EvGet item :: acquire_events w ++ EvTaskDone :: (EvSave <$> D) ++ tail)
  = sends tail.
Proof.
  by rewrite item_pass_split, !sends_app, sends_header, sends_EvSave.
Qed.

Lemma saves_item_pass item w D tail :
  saves (EvGet item :: acquire_events w ++ EvTaskDone :: (EvSave <$> D) ++ tail)
  = D ++ saves tail.
Proof.
  by rewrite item_pass_split, !saves_app, saves_header, saves_EvSave.
Qed.

Lemma saves_send_events msgs : saves (send_events env msgs) = [].
Proof. induction msgs as [|m msgs IH]; simpl; done. Qed.

Lemma sends_send_events msgs : sends (send_events env msgs) = msg_str env <$> msgs.
Proof. induction msgs as [|m msgs IH]; simpl; [done | f_equal; apply IH]. Qed.

Lemma saves_flush_events w A B : saves (flush_events env w A B) = [].
Proof.
  unfold flush_events. rewrite saves_app, saves_release_events.
  destruct A; simpl; [done|]. by rewrite saves_send_events.
Qed.

Lemma sends_flush_events w A B :
  sends (flush_events env w A B) =
    match A with [] => [] | _ :: _ => msg_str env <$> B end.
Proof.
  unfold flush_events. rewrite sends_app, sends_release_events, app_nil_r.
  destruct A; simpl; [done|]. by rewrite sends_send_events.
Qed.

(** The passes of a batch, from any accumulator: the data items append
    writes [D] and messages [Ms] and send nothing, the sentinel flushes
    everything accumulated. [t1] is the trace up to the flush. *)
Lemma batch_run kwargs items : ∀ w rest,
  queue w = Some ((Data <$> items) ++ EndOfBatch :: rest) →
  _loop w = true →
  ∃ D Ms t1,
    let o := loop env (S (length items)) kwargs w in
    sends t1 = [] ∧ saves t1 = D ∧
    (_topic w = None → Ms = []) ∧
    match result_of o with
    | inr _ =>
        trace_of o = t1 ++ flush_events env w (data w ++ D) (messages w ++ Ms) ∧
        state_of o = set_messages [] (set_data [] (set_queue (Some rest) w)) ∧
        (is_Some (_topic w) → length Ms = length D) ∧
        write_pair <$> D = call_of <$> (items ≫= staged_pairs env)
    | inl _ =>
        sends (trace_of o) = []
    end ∧
    (forallb (item_ok env) items = true →
     forallb (messages_ok env (_topic w) (_publish_vars w)) items = true →
     compute_writer_results env (data w ++ D) = None →
     result_of o = inr tt).
Proof.
  induction items as [|d items IH]; intros w rest Hq Hl.
  - exists [], [], (EvGet EndOfBatch :: acquire_events w ++ [EvTaskDone]).
    simpl in Hq. cbv zeta. change (S (length (@nil DataItem))) with 1.
    rewrite loop_1, (iteration_sentinel env kwargs w rest), !app_nil_r by done.
    unfold flush_events.
    rewrite sends_header, saves_header.
    repeat split; try done.
    + destruct (data w) as [|dw ds]; simpl.
      * unfold trace_of, state_of; simpl. repeat split; try done.
        by rewrite <- app_assoc.
      * destruct (compute_writer_results env (dw :: ds)); simpl.
        { by rewrite sends_app, sends_acquire_events. }
        unfold trace_of, state_of; simpl. repeat split; try done.
        by rewrite <- app_assoc.
    + intros _ _ Hc. destruct (data w) as [|dw ds]; simpl; [done|].
      by rewrite Hc.
  - rewrite fmap_cons, <- app_comm_cons in Hq.
    set (w0 := set_queue (Some ((Data <$> items) ++ EndOfBatch :: rest)) w).
    destruct (_process_staged env d kwargs w0)
      as (D1 & Ms1 & Hst & Htr & _ & _ & Hnone & Hlen & Hexp & Hok).
    pose proof (iteration_data env kwargs w d _ Hq) as Hit.
    fold w0 in Hit. cbv zeta in Hit.
    destruct (_process env d kwargs w0) as [[w1 tp] r].
    unfold state_of, trace_of, result_of in Hst, Htr, Hlen, Hexp, Hok, Hit.
    simpl in Hst, Htr, Hlen, Hexp, Hok, Hit. subst w1 tp.
    change (S (length (d :: items))) with (S (S (length items))). cbv zeta.
    rewrite loop_S by done. unfold mbind, M_bind. rewrite Hit. clear Hit.
    destruct r as [e|[]].
    + exists D1, Ms1,
        (EvGet (Data d) :: acquire_events w ++ EvTaskDone :: (EvSave <$> D1) ++ []).
      unfold result_of, trace_of. cbn [fst snd].
      rewrite sends_item_pass, saves_item_pass. simpl. rewrite app_nil_r.
      repeat split; try done.
      intros [Hd _]%andb_prop [Hm _]%andb_prop _. by specialize (Hok (conj Hd Hm)).
    + destruct (IH (extend D1 Ms1 w0) rest eq_refl Hl)
        as (D2 & Ms2 & t2 & Hs2 & Hv2 & Hn2 & Hres & Hok2).
      cbv zeta in Hres, Hok2.
      destruct (loop env (S (length items)) kwargs (extend D1 Ms1 w0))
        as [[w2 tl] r2].
      unfold state_of, trace_of, result_of in *.
      cbn [fst snd] in *. simpl in Hres, Hok2, Hn2.
      exists (D1 ++ D2), (Ms1 ++ Ms2),
        ((EvGet (Data d) :: acquire_events w ++ EvTaskDone ::
            (EvSave <$> D1) ++ release_events w) ++ t2).
      rewrite sends_app, saves_app, sends_item_pass, saves_item_pass,
        sends_release_events, saves_release_events, Hs2, Hv2, app_nil_r.
      clear IH. rewrite !app_assoc. rewrite (app_nil_r D1).
      split; [done|]. split; [done|].
      split; [intros Hn; by rewrite Hnone, Hn2|].
      split.
      * destruct r2 as [e|[]].
        -- by rewrite sends_app, sends_item_pass, sends_release_events.
        -- destruct Hres as (Htl & Hw2 & Hlen2 & Hexp2). repeat split.
           ++ rewrite Htl. by rewrite <- !app_assoc.
           ++ done.
           ++ intros Ht. rewrite !length_app, Hlen, Hlen2; auto.
           ++ simpl. rewrite !fmap_app, Hexp, Hexp2; auto.
      * intros [Hd Hi]%andb_prop [Hm Hms]%andb_prop Hc. auto.
Qed.

End Batch.

(** ** Where a send can stand in a trace *)

Lemma sends_not_nil pre wire post : sends (pre ++ EvSend wire :: post) ≠ [].
Proof.
  rewrite sends_app. simpl. intros H. by apply app_eq_nil in H as [_ ?].
Qed.

Lemma split_no_send t1 : ∀ t2 pre wire post,
  sends t1 = [] →
  t1 ++ t2 = pre ++ EvSend wire :: post →
  ∃ pre', pre = t1 ++ pre' ∧ t2 = pre' ++ EvSend wire :: post.
Proof.
  induction t1 as [|e t1 IH]; intros t2 pre wire post Hs Heq.
  - by exists pre.
  - destruct pre as [|e' pre]; simpl in Heq.
    + injection Heq as -> _. discriminate Hs.
    + injection Heq as -> Heq.
      destruct (IH t2 pre wire post) as (pre' & -> & ->); [|done|by exists pre'].
      destruct e'; simpl in Hs; done.
Qed.

Lemma send_events_prefix env msgs : ∀ tail p wire post,
  sends tail = [] →
  send_events env msgs ++ tail = p ++ EvSend wire :: post →
  Forall is_send p.
Proof.
  induction msgs as [|m msgs IH]; intros tail p wire post Hs Heq; simpl in Heq.
  - subst tail. by apply sends_not_nil in Hs.
  - destruct p as [|e p]; [constructor|].
    simpl in Heq. injection Heq as <- Heq. constructor; [done|].
    by eapply IH.
Qed.

Section BatchClaims.
Context (env : Collaborators).

(** C2. In the passes of a batch (data items, then the sentinel, from an
    empty accumulator), whatever the lock, the topic template and the
    rest of the queue: every send stands after the call of
    [compute_writer_results] on all the writes staged in the batch and
    after its return, and only sends stand between that return and it. *)
Theorem C2_sends_after_compute_returned kwargs w items rest pre wire post :
  let o := loop env (S (length items)) kwargs (batch_start w items rest) in
  trace_of o = pre ++ EvSend wire :: post →
  ∃ p1 p2,
    pre = p1 ++ EvCompute (saves (trace_of o)) ::
                EvComputed (saves (trace_of o)) :: p2 ∧
    Forall is_send p2.
Proof.
  intros o Htr.
  destruct (batch_run env kwargs items (batch_start w items rest) rest eq_refl eq_refl)
    as (D & Ms & t1 & Hs1 & Hv1 & _ & Hres & _).
  cbv zeta in Hres. fold o in Hres.
  destruct (result_of o) as [e|[]].
  { rewrite Htr in Hres. by apply sends_not_nil in Hres. }
  destruct Hres as (Ht & _). simpl in Ht.
  assert (saves (trace_of o) = D) as ->.
  { by rewrite Ht, saves_app, saves_flush_events, app_nil_r. }
  rewrite Ht in Htr.
  apply split_no_send in Htr as (pre' & -> & Hfl); [|done].
  unfold flush_events in Hfl. destruct D as [|dw D].
  { simpl in Hfl. pose proof (sends_release_events (batch_start w items rest)) as Hr.
    rewrite Hfl in Hr. by apply sends_not_nil in Hr. }
  destruct pre' as [|e1 [|e2 p2]]; simpl in Hfl; try discriminate Hfl.
  injection Hfl as -> -> Hfl.
  exists t1, p2. split; [done|].
  eapply send_events_prefix; [|exact Hfl]. apply sends_release_events.
Qed.

(** C3, amended. With a topic template configured, when the passes of a
    batch end without an exception, the flush sends as many messages as
    writes were staged, which is the number of (product, filename) pairs
    of the items, products that the scene lacks counting for nothing;
    the passes end without an exception when every item is well-formed,
    posttroll accepts every message of the items and the write delegate
    completes. Without a topic template no message is sent. *)
Theorem C3_sends_equal_staged_pairs kwargs w items rest :
  let o := loop env (S (length items)) kwargs (batch_start w items rest) in
  (∀ topic, _topic w = Some topic →
     (result_of o = inr tt →
        length (sends (trace_of o)) = length (saves (trace_of o)) ∧
        length (saves (trace_of o)) = length (items ≫= staged_pairs env)) ∧
     (forallb (item_ok env) items = true →
      forallb (messages_ok env (Some topic) (_publish_vars w)) items = true →
      (∀ ds, compute_writer_results env ds = None) →
      result_of o = inr tt)) ∧
  (_topic w = None → sends (trace_of o) = []).
Proof.
  intros o.
  destruct (batch_run env kwargs items (batch_start w items rest) rest eq_refl eq_refl)
    as (D & Ms & t1 & Hs1 & Hv1 & Hnone & Hres & Hok).
  cbv zeta in Hres, Hok. fold o in Hres, Hok. simpl in Hnone, Hres, Hok. split.
  - intros topic Htopic. rewrite Htopic in Hok. split; [|by auto].
    intros Hr. rewrite Hr in Hres. destruct Hres as (Ht & _ & Hlen & Hexp).
    rewrite Htopic in Hlen. specialize (Hlen (mk_is_Some _ _ eq_refl)).
    rewrite Ht, sends_app, saves_app, Hs1, Hv1, saves_flush_events,
      sends_flush_events, app_nil_r. simpl.
    split.
    + destruct D; [by destruct Ms|]. by rewrite length_fmap.
    + by rewrite <- (length_fmap write_pair), Hexp, length_fmap.
  - intros Htopic. specialize (Hnone Htopic). subst Ms.
    destruct (result_of o) as [e|[]]; [done|].
    destruct Hres as (-> & _).
    rewrite sends_app, Hs1, sends_flush_events. by destruct D.
Qed.

(** C7. Without a topic template, processing a data item records no
    message, and stages one write per (product, filename) pair when it
    ends normally, which it does on a well-formed item; the passes of a
    batch then send nothing, and when they end normally the writes of all
    the pairs were staged and, if there are any, executed by
    [compute_writer_results], which returned. *)
Theorem C7_no_topic_writes_without_messages kwargs w :
  _topic w = None →
  (∀ item,
     let o := _process env item kwargs w in
     messages (state_of o) = messages w ∧
     (result_of o = inr tt →
        ∃ D, data (state_of o) = data w ++ D ∧
             trace_of o = EvSave <$> D ∧
             write_pair <$> D = call_of <$> staged_pairs env item) ∧
     (item_ok env item = true → result_of o = inr tt)) ∧
  (∀ items rest,
     let o := loop env (S (length items)) kwargs (batch_start w items rest) in
     sends (trace_of o) = [] ∧
     (result_of o = inr tt →
        write_pair <$> saves (trace_of o) = call_of <$> (items ≫= staged_pairs env) ∧
        (saves (trace_of o) ≠ [] →
           EvCompute (saves (trace_of o)) ∈ trace_of o ∧
           EvComputed (saves (trace_of o)) ∈ trace_of o)) ∧
     (forallb (item_ok env) items = true →
      (∀ ds, compute_writer_results env ds = None) →
      result_of o = inr tt)).
Proof.
  intros Htopic. split.
  - intros item o.
    destruct (_process_staged env item kwargs w)
      as (D & Ms & Hst & Htr & _ & _ & Hnone & _ & Hexp & Hok).
    fold o in Hst, Htr, Hexp, Hok. rewrite (Hnone Htopic) in Hst.
    rewrite Hst. split; [|split].
    + simpl. by rewrite app_nil_r.
    + intros Hr. exists D. simpl. auto.
    + intros Hitem. apply Hok. split; [done|].
      rewrite Htopic. apply messages_ok_no_topic.
  - intros items rest o.
    destruct (batch_run env kwargs items (batch_start w items rest) rest eq_refl eq_refl)
      as (D & Ms & t1 & Hs1 & Hv1 & Hnone & Hres & Hok).
    cbv zeta in Hres, Hok. fold o in Hres, Hok.
    specialize (Hnone Htopic). subst Ms. simpl in Hres, Hok.
    split; [|split].
    3:{ intros Hitems Hc. apply Hok; [done| |done].
        rewrite Htopic. apply forallb_messages_ok_no_topic. }
    + destruct (result_of o) as [e|[]]; [done|].
      destruct Hres as (-> & _).
      rewrite sends_app, Hs1, sends_flush_events. by destruct D.
    + intros Hr. rewrite Hr in Hres. destruct Hres as (Ht & _ & _ & Hexp).
      rewrite Ht, saves_app, saves_flush_events, app_nil_r, Hv1.
      split; [done|]. intros HD. unfold flush_events.
      destruct D as [|dw D]; [done|].
      split; apply elem_of_app; right; set_solver.
Qed.

End BatchClaims.

(** ** Any run of the loop *)

Section Run.
Context (env : Collaborators).

Lemma iteration_configuration kwargs w :
  same_configuration w (state_of (iteration env kwargs w)).
Proof.
  destruct (queue w) as [[|[|d] rest]|] eqn:Hq.
  - by rewrite iteration_empty.
  - rewrite (iteration_sentinel env kwargs w rest Hq).
    destruct (data w); [done|]. by destruct (compute_writer_results env _).
  - rewrite (iteration_data env kwargs w d rest Hq). cbv zeta.
    destruct (_process_staged env d kwargs (set_queue (Some rest) w))
      as (D & Ms & Hst & _).
    unfold state_of in *. simpl in *. by rewrite Hst.
  - by rewrite iteration_unbound.
Qed.

(** What holds of every event of every pass holds of every event of the
    loop, given an invariant of the worker. *)
Lemma loop_Forall (T : event → Prop) (I : DataWriter → Prop) kwargs :
  (∀ w, I w → Forall T (trace_of (iteration env kwargs w)) ∧
              I (state_of (iteration env kwargs w))) →
  ∀ fuel w, I w →
    Forall T (trace_of (loop env fuel kwargs w)) ∧
    I (state_of (loop env fuel kwargs w)).
Proof.
  intros Hstep. induction fuel as [|fuel IH]; intros w Hw; simpl.
  - by split.
  - rewrite bind_gets. destruct (_loop w); [|by split].
    destruct (Hstep w Hw) as [Ht Hi]. unfold mbind, M_bind.
    destruct (iteration env kwargs w) as [[w1 t1] [e|[]]]; [done|].
    unfold state_of, trace_of in *. simpl in Ht, Hi.
    destruct (IH w1 Hi) as [Ht' Hi'].
    destruct (loop env fuel kwargs w1) as [[w2 t2] r]. simpl in *.
    split; [by apply Forall_app|done].
Qed.

Lemma run_unfold fuel w save_settings :
  _save_settings w = Some save_settings →
  run env fuel w = loop env fuel (parse_settings save_settings) (set_loop true w).
Proof.
  intros Hs. unfold run. unfold mbind at 1, M_bind at 1, modify.
  rewrite bind_gets. simpl. rewrite Hs. simpl. rewrite bind_mret.
  by destruct (loop env fuel _ _) as [[w2 t2] r].
Qed.

(** The events of a pass, by kind. *)
Lemma iteration_events (T : event → Prop) kwargs w :
  T EvSleep → T EvEmpty → T EvTaskDone →
  (∀ item, T (EvGet item)) →
  (∀ l, prev_lock w = Some l → T (EvAcquire l) ∧ T (EvRelease [l])) →
  (∀ dw, dw_kwargs dw = kwargs → dw_compute dw = false → T (EvSave dw)) →
  (∀ ds, T (EvCompute ds) ∧ T (EvComputed ds)) →
  (∀ wire, T (EvSend wire)) →
  Forall T (trace_of (iteration env kwargs w)).
Proof.
  intros Hsleep Hempty Hdone Hget Hlock Hsave Hcomp Hsend.
  assert (Forall T (acquire_events w)) as Hacq.
  { unfold acquire_events. destruct (prev_lock w) as [l|]; [|done].
    repeat constructor. by apply Hlock. }
  assert (Forall T (release_events w)) as Hrel.
  { unfold release_events. destruct (prev_lock w) as [l|]; [|done].
    repeat constructor. by apply Hlock. }
  assert (∀ msgs, Forall T (send_events env msgs)) as Hsends.
  { intros msgs. apply Forall_fmap, Forall_forall. intros; apply Hsend. }
  destruct (queue w) as [[|[|d] rest]|] eqn:Hq.
  - rewrite iteration_empty by done. by repeat constructor.
  - rewrite (iteration_sentinel env kwargs w rest Hq).
    destruct (data w) as [|dw ds]; unfold trace_of; simpl.
    + constructor; [done|]. apply Forall_app. split; [done|]. by constructor.
    + destruct (compute_writer_results env _); simpl.
      * constructor; [done|]. apply Forall_app. split; [done|].
        repeat constructor; [done|apply Hcomp].
      * constructor; [done|]. apply Forall_app. split; [done|].
        repeat (constructor; [done || apply Hcomp|]).
        by apply Forall_app.
  - rewrite (iteration_data env kwargs w d rest Hq). cbv zeta.
    destruct (_process_staged env d kwargs (set_queue (Some rest) w))
      as (D & Ms & _ & Htr & HD & _).
    unfold trace_of in *. simpl in *. rewrite Htr.
    constructor; [done|]. apply Forall_app. split; [done|].
    constructor; [done|]. apply Forall_app. split.
    + apply Forall_fmap. eapply Forall_impl; [exact HD|].
      intros dw (? & ? & _). by apply Hsave.
    + destruct (result_of (_process env d kwargs (set_queue (Some rest) w)));
        [constructor|done].
  - rewrite iteration_unbound by done. by repeat constructor.
Qed.

Lemma parse_settings_lookup save_settings :
  parse_settings save_settings !! "compression"
    = Some (default (VInt 6) (save_settings !! "compression")) ∧
  (∀ k, k ∈ ["tags"; "fformat"; "gdal_options"; "blocksize"] →
        parse_settings save_settings !! k
          = Some (default VNone (save_settings !! k))) ∧
  dom (parse_settings save_settings) = list_to_set recognized_options.
Proof.
  unfold parse_settings, recognized_options. split; [|split].
  - by simplify_map_eq.
  - intros k Hk. set_unfold in Hk.
    destruct Hk as [->|[->|[->|[->|[]]]]]; by simplify_map_eq.
  - rewrite !dom_insert_L, dom_singleton_L. set_solver.
Qed.

Lemma run_saves fuel w save_settings dw :
  _save_settings w = Some save_settings →
  EvSave dw ∈ trace_of (run env fuel w) →
  dw_kwargs dw = parse_settings save_settings ∧ dw_compute dw = false.
Proof.
  intros Hs Hin. rewrite (run_unfold fuel w save_settings Hs) in Hin.
  set (kwargs := parse_settings save_settings) in *.
  destruct (loop_Forall
              (λ e, ∀ dw, e = EvSave dw → dw_kwargs dw = kwargs ∧ dw_compute dw = false)
              (λ _, True) kwargs) with (fuel := fuel) (w := set_loop true w)
    as [Hall _]; [|done|].
  - intros w' _. split; [|done].
    apply iteration_events; try done.
    intros dw' ? ? ? [= <-]. by split.
  - rewrite Forall_forall in Hall. by apply (Hall _ Hin).
Qed.

(** C5. Every write staged by [run] carries exactly the five recognized
    options: each one that the save settings hold with the value they
    hold (the one written for it in [run] when they do not:
    6 for [compression], [None] for the others), and nothing else. *)
Theorem C5_save_settings_passed_verbatim fuel w save_settings dw :
  _save_settings w = Some save_settings →
  EvSave dw ∈ trace_of (run env fuel w) →
  (∀ k v, k ∈ recognized_options → save_settings !! k = Some v →
          dw_kwargs dw !! k = Some v) ∧
  dom (dw_kwargs dw) = list_to_set recognized_options ∧
  (save_settings !! "compression" = None →
     dw_kwargs dw !! "compression" = Some (VInt 6)) ∧
  (∀ k, k ∈ ["tags"; "fformat"; "gdal_options"; "blocksize"] →
        save_settings !! k = None → dw_kwargs dw !! k = Some VNone).
Proof.
  intros Hs Hin. destruct (run_saves fuel w save_settings dw Hs Hin) as [-> _].
  destruct (parse_settings_lookup save_settings) as (Hc & Ho & Hdom).
  split; [|split; [done|split]].
  - intros k v Hk Hv. unfold recognized_options in Hk. set_unfold in Hk.
    destruct Hk as [->|Hk].
    + by rewrite Hc, Hv.
    + rewrite Ho, Hv; [done|]. set_solver.
  - intros Hn. by rewrite Hc, Hn.
  - intros k Hk Hn. by rewrite (Ho k Hk), Hn.
Qed.

(** C4, amended. The accumulator is empty in a new worker. A pass that
    takes a data item only appends to both lists; a pass that takes the
    sentinel ends normally exactly when there is nothing to write or the
    write delegate returns, and then both lists are empty, and otherwise
    (the delegate raised, nothing was reached after it) both are as
    before; any other pass leaves both as they are. *)
Theorem C4_accumulator_lifecycle :
  (∀ q save_settings tpc port nameservers lck publish_vars,
     let w := DataWriter_init q save_settings tpc port nameservers lck publish_vars in
     data w = [] ∧ messages w = []) ∧
  (∀ kwargs w,
     let o := iteration env kwargs w in
     match queue w with
     | Some (Data d :: _) =>
         ∃ D Ms, data (state_of o) = data w ++ D ∧
                 messages (state_of o) = messages w ++ Ms
     | Some (EndOfBatch :: _) =>
         (result_of o = inr tt ↔
            data w = [] ∨ compute_writer_results env (data w) = None) ∧
         match result_of o with
         | inr _ => data (state_of o) = [] ∧ messages (state_of o) = []
         | inl _ => data (state_of o) = data w ∧ messages (state_of o) = messages w
         end
     | Some [] | None =>
         data (state_of o) = data w ∧ messages (state_of o) = messages w
     end).
Proof.
  split; [done|]. intros kwargs w o. subst o.
  destruct (queue w) as [[|[|d] rest]|] eqn:Hq.
  - by rewrite iteration_empty.
  - rewrite (iteration_sentinel env kwargs w rest Hq).
    destruct (data w) as [|dw ds] eqn:Hd; unfold result_of, state_of; simpl.
    + repeat split; auto.
    + destruct (compute_writer_results env (dw :: ds)); simpl.
      * repeat split; auto; try done. by intros [|].
      * repeat split; auto.
  - rewrite (iteration_data env kwargs w d rest Hq). cbv zeta.
    destruct (_process_staged env d kwargs (set_queue (Some rest) w))
      as (D & Ms & Hst & _).
    exists D, Ms. unfold state_of in *. simpl in *. by rewrite Hst.
  - by rewrite iteration_unbound.
Qed.

End Run.

(** ** Processing a data item *)

Section Process.
Context (env : Collaborators).


Lemma to_send_fix_lookup start_time fname area_data productname (sel : dict) :
  let payload := to_send_fix env start_time fname area_data productname ∪ sel in
  payload !! "nominal_time" = Some start_time ∧
  payload !! "uid" = Some (VStr (basename env fname)) ∧
  payload !! "uri" = Some (VStr (abspath env fname)) ∧
  payload !! "area" = Some (area_value area_data) ∧
  payload !! "productname" = Some (VStr productname) ∧
  ∀ k, k ∉ fixed_fields → payload !! k = sel !! k.
Proof.
  intros payload. subst payload. unfold to_send_fix, fixed_fields.
  repeat split; try (apply lookup_union_Some_l; by simplify_map_eq).
  intros k Hk. apply lookup_union_r. set_unfold in Hk.
  rewrite !lookup_insert_ne, lookup_singleton_ne; naive_solver.
Qed.

(** C10. Every message that [_process] records is the message of a
    (product, filename) pair of the item, and in its payload
    [nominal_time], [uid], [uri], [area] and [productname] are the start
    time of the scene, the base name and the absolute path of the file,
    the area data and the product name, whatever [select_dict_items]
    selected under those keys; every other key is as selected. With a topic
    template there is one message per pair when processing ends normally,
    as it does on a well-formed item whose messages posttroll accepts. *)
Theorem C10_fixed_fields_win item kwargs w :
  let o := _process env item kwargs w in
  ∃ Ms, messages (state_of o) = messages w ++ Ms ∧
    (is_Some (_topic w) → result_of o = inr tt →
       length Ms = length (staged_pairs env item)) ∧
    (item_ok env item = true →
     messages_ok env (_topic w) (_publish_vars w) item = true →
     result_of o = inr tt) ∧
    Forall (λ msg, ∃ prod fname start_time dset,
      (prod, fname) ∈ staged_pairs env item ∧
      attrs (scene item) !! "start_time" = Some start_time ∧
      scene_getitem (scene item) prod = Some dset ∧
      msg_data msg !! "nominal_time" = Some start_time ∧
      msg_data msg !! "uid" = Some (VStr (basename env fname)) ∧
      msg_data msg !! "uri" = Some (VStr (abspath env fname)) ∧
      msg_data msg !! "area" = Some (area_value (area_data_of (ds_area dset))) ∧
      msg_data msg !! "productname" =
        Some (VStr (create_fnames env (attrs (scene item))
                      (product_config (extra_metadata item)) prod).2) ∧
      ∀ k, k ∉ fixed_fields →
           msg_data msg !! k =
             select_dict_items env (attrs (scene item)) (_publish_vars w) !! k) Ms.
Proof.
  intros o. subst o.
  destruct (_process_staged env item kwargs w)
    as (D & Ms & Hst & _ & _ & HMs & _ & Hlen & Hexp & Hok).
  exists Ms. rewrite Hst. split; [done|]. split; [|split; [by auto|]].
  { intros Ht Hr. rewrite Hlen by done.
    by rewrite <- (length_fmap write_pair), Hexp, length_fmap. }
  eapply Forall_impl; [exact HMs|].
  intros msg (prod & fname & topic & start_time & dset & Hin & _ & Hs & Hd & ->).
  exists prod, fname, start_time, dset. simpl.
  pose proof (to_send_fix_lookup start_time fname (area_data_of (ds_area dset))
                (create_fnames env (attrs (scene item))
                   (product_config (extra_metadata item)) prod).2
                (select_dict_items env (attrs (scene item)) (_publish_vars w))) as Hl.
  cbv zeta in Hl. destruct Hl as (? & ? & ? & ? & ? & ?). by repeat split.
Qed.



Lemma process_product_absent lcl scn_metadata cfg names kwargs i prod :
  prod ∉ names →
  process_product env lcl scn_metadata cfg names kwargs i prod = mret tt.
Proof. intros Hout. unfold process_product. by rewrite bool_decide_eq_true_2. Qed.







End Process.

(** ** The lock around one pass *)

Section Lock.
Context (env : Collaborators).

Lemma acquired_app t1 t2 : acquired (t1 ++ t2) = acquired t1 ++ acquired t2.
Proof. apply omap_app. Qed.

Lemma released_app t1 t2 : released (t1 ++ t2) = released t1 ++ released t2.
Proof. apply bind_app. Qed.

Lemma acquired_EvSave D : acquired (EvSave <$> D) = [].
Proof. induction D as [|d D IH]; simpl; done. Qed.

Lemma released_EvSave D : released (EvSave <$> D) = [].
Proof. induction D as [|d D IH]; simpl; done. Qed.

Lemma acquired_send_events msgs : acquired (send_events env msgs) = [].
Proof. induction msgs as [|m msgs IH]; simpl; done. Qed.

Lemma released_send_events msgs : released (send_events env msgs) = [].
Proof. induction msgs as [|m msgs IH]; simpl; done. Qed.

(** A pass that takes an item with a lock configured acquires the lock
    once; it releases it when the item is dealt with normally, and not at
    all when dealing with it raises. *)
Lemma iteration_lock_events kwargs w l item rest :
  prev_lock w = Some l →
  queue w = Some (item :: rest) →
  let o := iteration env kwargs w in
  acquired (trace_of o) = [l] ∧
  released (trace_of o) = match result_of o with
                          | inr _ => [l]
                          | inl _ => []
                          end.
Proof.
  intros Hl Hq o. subst o. destruct item as [|d].
  - rewrite (iteration_sentinel env kwargs w rest Hq).
    unfold acquire_events, release_events. rewrite Hl.
    destruct (data w) as [|dw ds]; [done|].
    destruct (compute_writer_results env (dw :: ds)); [done|].
    unfold trace_of, result_of. simpl.
    by rewrite acquired_app, released_app, acquired_send_events,
      released_send_events.
  - rewrite (iteration_data env kwargs w d rest Hq). cbv zeta.
    destruct (_process_staged env d kwargs (set_queue (Some rest) w))
      as (D & Ms & _ & Htr & _).
    unfold acquire_events, release_events. rewrite Hl.
    unfold trace_of, result_of in *. simpl in *. rewrite Htr.
    rewrite acquired_app, released_app, acquired_EvSave, released_EvSave.
    by destruct (_process env d kwargs (set_queue (Some rest) w)).2.
Qed.

End Lock.

(** ** The container and its lock reference *)

Section ContainerClaims.
Context (env : Collaborators).

Lemma iteration_without_lock kwargs w :
  prev_lock w = None →
  Forall (λ e, ¬ is_lock_event e) (trace_of (iteration env kwargs w)).
Proof.
  intros Hl. apply iteration_events; simpl; try tauto.
  all: intros; try congruence; tauto.
Qed.

Lemma init_lock_free tpc port nameservers save_settings publish_vars :
  lock_free (DataWriterContainer_init tpc port nameservers save_settings
               false publish_vars).
Proof.
  unfold DataWriterContainer_init, _init_writer, start_thread. simpl.
  by destruct save_settings.
Qed.

Lemma perform_lock_free a c :
  lock_free c →
  lock_free (perform env a c).1 ∧
  Forall (λ e, ¬ is_lock_event e) (perform env a c).2.
Proof.
  intros (Hu & Hc & Hw). destruct a as [l|q| |item|]; simpl.
  - unfold prev_lock_setter. rewrite Hu. by repeat split.
  - by repeat split.
  - split; [|done]. unfold restart, _init_writer, start_thread, stop.
    destruct (_loop (writer c)); simpl;
      by destruct (c_save_settings c).
  - by repeat split.
  - unfold worker_pass. destruct (thread c) as [[kwargs|e]|]; try by repeat split.
    destruct (_loop (writer c)); [|by repeat split].
    pose proof (iteration_without_lock kwargs (writer c) Hw) as Hno.
    destruct (iteration_configuration env kwargs (writer c)) as (_ & _ & _ & Hp & _).
    destruct (iteration env kwargs (writer c)) as [[w1 t1] [e|[]]];
      unfold state_of, trace_of in *; simpl in *;
      (split; [|done]); repeat split; auto; simpl; congruence.
Qed.

Lemma perform_all_lock_free acts : ∀ c,
  lock_free c →
  lock_free (perform_all env acts c).1 ∧
  Forall (λ e, ¬ is_lock_event e) (perform_all env acts c).2.
Proof.
  induction acts as [|a acts IH]; intros c Hc; simpl; [by split|].
  destruct (perform_lock_free a c Hc) as [Hc1 Ht1].
  destruct (perform env a c) as [c1 t1]. simpl in *.
  destruct (IH c1 Hc1) as [Hc2 Ht2].
  destruct (perform_all env acts c1) as [c2 t2]. simpl in *.
  split; [done|]. by apply Forall_app.
Qed.

(** C9. In a container made with [use_lock = False], after any history
    of assignments to its properties, restarts, items put on the queue
    and passes of the worker thread: assigning any lock to [prev_lock]
    changes nothing in the container and its worker, both references are
    still [None], and no lock was acquired or released. *)
Theorem C9_use_lock_off_setter_is_noop tpc port nameservers save_settings
    publish_vars acts :
  let c0 := DataWriterContainer_init tpc port nameservers save_settings
              false publish_vars in
  let c := (perform_all env acts c0).1 in
  let t := (perform_all env acts c0).2 in
  (∀ l, prev_lock_setter l c = c) ∧
  _prev_lock c = None ∧ prev_lock (writer c) = None ∧
  Forall (λ e, ¬ is_lock_event e) t.
Proof.
  intros c0 c t.
  destruct (perform_all_lock_free acts c0 (init_lock_free _ _ _ _ _))
    as [(Hu & Hc & Hw) Ht].
  fold c in Hu, Hc, Hw. repeat split; try done.
  intros l. unfold prev_lock_setter. by rewrite Hu.
Qed.

End ContainerClaims.

(** ** Concrete runs of the small pipeline *)

(** C1 (the code does not do this). A worker with the lock ["previous"]
    takes a data item and then the sentinel, and [compute_writer_results]
    raises: the exception leaves [run] after the lock has been acquired for
    the second time and released once; the last event is the call of the
    write delegate. The same happens when it is [_process] that raises,
    here a [KeyError] on metadata without a start time. *)
Theorem C1_lock_kept_when_step_raises :
  (let w := demo_writer (Some "/topic") (Some "previous")
              [Data (demo_item ["A"]); EndOfBatch] in
   let o := run failing_env 2 w in
   result_of o = inl (WriteError "No space left on device") ∧
   trace_of o =
     [EvGet (Data (demo_item ["A"])); EvAcquire "previous"; EvTaskDone;
      EvSave demo_write; EvRelease ["previous"];
      EvGet EndOfBatch; EvAcquire "previous"; EvTaskDone;
      EvCompute [demo_write]] ∧
   acquired (trace_of o) = ["previous"; "previous"] ∧
   released (trace_of o) = ["previous"]) ∧
  (let w := demo_writer (Some "/topic") (Some "previous") [Data undated_item] in
   let o := run demo_env 1 w in
   result_of o = inl (KeyError "start_time") ∧
   acquired (trace_of o) = ["previous"] ∧
   released (trace_of o) = []).
Proof. vm_compute. by repeat split. Qed.

(** C3 as stated fails without a topic template: one (product, filename)
    pair is staged and written, and nothing is sent. It fails also, with a
    topic template, when the write delegate raises: the pair is staged and
    the exception leaves the flush before any send. *)
Lemma C3_counterexample_no_topic :
  let items := [demo_item ["A"; "B"]] in
  (let o := loop demo_env (S (length items)) (parse_settings ∅)
              (batch_start (demo_writer None None []) items []) in
   result_of o = inr tt ∧
   items ≫= staged_pairs demo_env = [("A", "A.tif")] ∧
   saves (trace_of o) = [demo_write] ∧
   sends (trace_of o) = [] ∧
   length (sends (trace_of o)) ≠ length (items ≫= staged_pairs demo_env)) ∧
  (let o := loop failing_env (S (length items)) (parse_settings ∅)
              (batch_start (demo_writer (Some "/topic") None []) items []) in
   result_of o = inl (WriteError "No space left on device") ∧
   saves (trace_of o) = [demo_write] ∧
   sends (trace_of o) = []).
Proof. vm_compute. by repeat split. Qed.

(** C4 as stated fails when the write delegate raises: the worker starts
    with an empty accumulator, stages one write and one message for the
    data item, takes the sentinel, and the exception leaves the flush with
    both lists as they were, not emptied. *)
Lemma C4_counterexample_failed_flush :
  let q := [Data (demo_item ["A"]); EndOfBatch] in
  let w := demo_writer (Some "/topic") None q in
  let o := run failing_env 2 w in
  data w = [] ∧ messages w = [] ∧
  taken (trace_of o) = q ∧
  result_of o = inl (WriteError "No space left on device") ∧
  data (state_of o) = [demo_write] ∧
  length (messages (state_of o)) = 1 ∧
  queue (state_of o) = Some [].
Proof. vm_compute. by repeat split. Qed.


(** A batch of the small pipeline with a topic template: its one send stands after the write delegate returned. *)
Lemma C2_witness :
  let items := [demo_item ["A"; "B"]] in
  let o := loop demo_env (S (length items)) (parse_settings ∅)
             (batch_start (demo_writer (Some "/topic") None []) items []) in
  let pre := [EvGet (Data (demo_item ["A"; "B"])); EvTaskDone; EvSave demo_write;
              EvGet EndOfBatch; EvTaskDone;
              EvCompute [demo_write]; EvComputed [demo_write]] in
  trace_of o = pre ++ EvSend "/topic/satproj" :: [] ∧
  ∃ p1 p2,
    pre = p1 ++ EvCompute (saves (trace_of o)) ::
                EvComputed (saves (trace_of o)) :: p2 ∧
    Forall is_send p2.
Proof.
  intros items o pre.
  assert (trace_of o = pre ++ EvSend "/topic/satproj" :: []) as Htr
    by (vm_compute; reflexivity).
  split; [exact Htr|].
  exact (C2_sends_after_compute_returned demo_env (parse_settings ∅)
           (demo_writer (Some "/topic") None []) items [] pre "/topic/satproj" [] Htr).
Defined.

(** The same batch: with a topic one pair is staged and one message sent;
    without a topic the pair is staged and nothing is sent. *)
Lemma C3_witness :
  let items := [demo_item ["A"; "B"]] in
  let run_with tpc :=
    loop demo_env (S (length items)) (parse_settings ∅)
      (batch_start (demo_writer tpc None []) items []) in
  (result_of (run_with (Some "/topic")) = inr tt ∧
   length (sends (trace_of (run_with (Some "/topic")))) = 1 ∧
   length (saves (trace_of (run_with (Some "/topic")))) = 1 ∧
   length (items ≫= staged_pairs demo_env) = 1) ∧
  sends (trace_of (run_with None)) = [].
Proof.
  intros items run_with.
  pose proof (C3_sends_equal_staged_pairs demo_env (parse_settings ∅)
                (demo_writer (Some "/topic") None []) items []) as [Htopic _].
  pose proof (C3_sends_equal_staged_pairs demo_env (parse_settings ∅)
                (demo_writer None None []) items []) as [_ Hnone].
  destruct (Htopic "/topic" eq_refl) as [Hcount Hok].
  assert (Hr : result_of (run_with (Some "/topic")) = inr tt).
  { apply Hok; [reflexivity|reflexivity|intros ds; reflexivity]. }
  destruct (Hcount Hr) as [H1 H2].
  split; [|exact (Hnone eq_refl)].
  split; [exact Hr|].
  assert (H3 : length (items ≫= staged_pairs demo_env) = 1) by reflexivity.
  unfold run_with. rewrite H1, H2. done.
Defined.

(** Save settings with a compression level and an option that [run] does not read. *)
Lemma C5_witness :
  let save_settings : dict := {[ "compression" := VInt 9; "quality" := VInt 75 ]} in
  let w := DataWriter_init (Some [Data (demo_item ["A"])]) (Some save_settings)
             None 0 NsNone None None in
  let dw := {| dw_datasets := ["A"]; dw_file_pattern := "A.tif";
               dw_writer := "geotiff"; dw_compute := false;
               dw_kwargs := parse_settings save_settings |} in
  _save_settings w = Some save_settings ∧
  EvSave dw ∈ trace_of (run demo_env 1 w) ∧
  (∀ k v, k ∈ recognized_options → save_settings !! k = Some v →
          dw_kwargs dw !! k = Some v) ∧
  dom (dw_kwargs dw) = list_to_set recognized_options ∧
  (save_settings !! "compression" = None →
     dw_kwargs dw !! "compression" = Some (VInt 6)) ∧
  (∀ k, k ∈ ["tags"; "fformat"; "gdal_options"; "blocksize"] →
        save_settings !! k = None → dw_kwargs dw !! k = Some VNone).
Proof.
  intros save_settings w dw.
  assert (EvSave dw ∈ trace_of (run demo_env 1 w)) as Hin
    by (vm_compute; repeat constructor).
  split; [reflexivity|]. split; [exact Hin|].
  exact (C5_save_settings_passed_verbatim demo_env 1 w save_settings dw eq_refl Hin).
Defined.


(** The batch of the small pipeline without a topic template. *)
Lemma C7_witness :
  let w := demo_writer None None [] in
  let items := [demo_item ["A"; "B"]] in
  let o := loop demo_env (S (length items)) (parse_settings ∅)
             (batch_start w items []) in
  _topic w = None ∧
  sends (trace_of o) = [] ∧
  (result_of o = inr tt →
     write_pair <$> saves (trace_of o) = call_of <$> (items ≫= staged_pairs demo_env) ∧
     (saves (trace_of o) ≠ [] →
        EvCompute (saves (trace_of o)) ∈ trace_of o ∧
        EvComputed (saves (trace_of o)) ∈ trace_of o)).
Proof.
  intros w items o. split; [reflexivity|].
  destruct (proj2 (C7_no_topic_writes_without_messages demo_env (parse_settings ∅)
                     w eq_refl) items []) as (Hs & Hr & _).
  split; [exact Hs | exact Hr].
Defined.

(** Scene metadata that hold ["uid"] and ["productname"], selected whole:
    the one message recorded has the computed values under both. *)
Lemma C10_witness :
  let w := demo_writer (Some "/topic") None [] in
  let o := _process demo_env clashing_item (parse_settings ∅) w in
  let selected :=
    select_dict_items demo_env (attrs (scene clashing_item)) (_publish_vars w) in
  selected !! "uid" = Some (VStr "stale.tif") ∧
  selected !! "productname" = Some (VStr "stale") ∧
  result_of o = inr tt ∧
  ∃ msg, messages (state_of o) = [msg] ∧
    msg_data msg !! "uid" = Some (VStr "A.tif") ∧
    msg_data msg !! "productname" = Some (VStr "A") ∧
    msg_data msg !! "area_id" = Some (VStr "euro4").
Proof.
  intros w o selected.
  destruct (C10_fixed_fields_win demo_env clashing_item (parse_settings ∅) w)
    as (Ms & Hm & Hlen & Hok & Hall).
  assert (Hr : result_of o = inr tt) by (apply Hok; reflexivity).
  split; [reflexivity|]. split; [reflexivity|]. split; [exact Hr|].
  specialize (Hlen (ex_intro _ "/topic" eq_refl) Hr).
  destruct Ms as [|msg [|msg' Ms]]; try discriminate Hlen.
  exists msg. split; [exact Hm|].
  apply Forall_inv in Hall.
  destruct Hall as (prod & fname & start_time & dset & Hin & _ & _ & _ & Huid & _
                    & _ & Hname & Hsel).
  vm_compute in Hin. apply list_elem_of_singleton in Hin.
  injection Hin as -> ->.
  split; [exact Huid|]. split; [exact Hname|].
  rewrite Hsel; [reflexivity|].
  apply (bool_decide_unpack _). vm_compute. reflexivity.
Defined.

(** ** Well-formed items: what [_process] amounts to *)

Section Exact.
Context (env : Collaborators).

Lemma process_fname_exact lcl scn_metadata prod productname writers kwargs
    j fname w writer dset start_time :
  writers !! j = Some writer →
  scene_getitem lcl prod = Some dset →
  scn_metadata !! "start_time" = Some start_time →
  let msgs :=
    match _topic w with
    | Some topic =>
        [file_message env scn_metadata (_publish_vars w) topic start_time
           dset productname fname]
    | None => []
    end in
  forallb (accepted env) msgs = true →
  process_fname env lcl scn_metadata prod productname writers kwargs j fname w
  = (extend [file_write prod kwargs fname writer] msgs w,
     [EvSave (file_write prod kwargs fname writer)], inr tt).
Proof.
  intros Hw Hd Hs msgs Hacc. subst msgs. unfold process_fname.
  unfold mbind, M_bind, emit, modify, gets, from_option, mret, M_ret.
  rewrite Hw, Hd, Hs. simpl.
  destruct (_topic w) as [topic|]; simpl; [|by rewrite extend_data].
  simpl in Hacc. rewrite andb_true_r in Hacc. unfold accepted in Hacc.
  unfold file_message in Hacc.
  by destruct (message_error env _).
Qed.

Lemma fnames_exact lcl scn_metadata prod productname writers kwargs dset
    start_time fnames : ∀ i w,
  i + length fnames ≤ length writers →
  scene_getitem lcl prod = Some dset →
  scn_metadata !! "start_time" = Some start_time →
  let msgs :=
    match _topic w with
    | Some topic =>
        file_message env scn_metadata (_publish_vars w) topic start_time
          dset productname <$> fnames
    | None => []
    end in
  forallb (accepted env) msgs = true →
  for_enumerate
    (process_fname env lcl scn_metadata prod productname writers kwargs) i fnames w
  = (extend (zip_with (file_write prod kwargs) fnames (drop i writers)) msgs w,
     EvSave <$> zip_with (file_write prod kwargs) fnames (drop i writers),
     inr tt).
Proof.
  induction fnames as [|fname fnames IH]; intros i w Hlen Hd Hs msgs Hacc;
    subst msgs.
  - simpl. destruct (_topic w); by rewrite extend_nil.
  - simpl in Hlen. destruct (lookup_lt_is_Some_2 writers i) as [writer Hw]; [lia|].
    rewrite (drop_S _ _ _ Hw). simpl. unfold mbind, M_bind.
    rewrite (process_fname_exact _ _ _ _ _ _ _ _ _ writer dset start_time);
      [|done|done|done|].
    2:{ destruct (_topic w); [|done]. simpl in *.
        apply andb_prop in Hacc as [Ha _]. by rewrite Ha. }
    cbv zeta. rewrite IH; [|lia|done|done|].
    2:{ simpl. destruct (_topic w); [|done]. simpl in *.
        by apply andb_prop in Hacc as [_ Ha]. }
    cbv zeta. simpl. rewrite extend_extend.
    by destruct (_topic w).
Qed.

Lemma process_product_exact item kwargs i prod w :
  bool_decide (prod ∉ ds_name <$> datasets (scene item))
  || product_ok env (scene item) (product_config (extra_metadata item)) prod = true →
  let writes :=
    if bool_decide (prod ∈ ds_name <$> datasets (scene item)) then
      product_writes env (scene item) (product_config (extra_metadata item)) kwargs prod
    else [] in
  let msgs :=
    if bool_decide (prod ∈ ds_name <$> datasets (scene item)) then
      product_messages env (scene item) (product_config (extra_metadata item))
        (_topic w) (_publish_vars w) prod
    else [] in
  forallb (accepted env) msgs = true →
  process_product env (scene item) (attrs (scene item))
    (product_config (extra_metadata item)) (ds_name <$> datasets (scene item))
    kwargs i prod w
  = (extend writes msgs w, EvSave <$> writes, inr tt).
Proof.
  set (lcl := scene item). set (cfg := product_config (extra_metadata item)).
  set (names := ds_name <$> datasets lcl).
  intros Hok writes msgs Hacc. subst writes msgs.
  destruct (decide (prod ∈ names)) as [Hin|Hout].
  2:{ rewrite process_product_absent by done.
      rewrite (bool_decide_eq_false_2 (prod ∈ names)) by done.
      by rewrite extend_nil. }
  rewrite (bool_decide_eq_false_2 (prod ∉ names)) in Hok by auto.
  rewrite (bool_decide_eq_true_2 (prod ∈ names)) in Hacc |- * by done.
  simpl in Hok. unfold product_ok in Hok.
  unfold process_product, product_writes.
  unfold product_messages in Hacc |- *.
  rewrite (bool_decide_eq_false_2 (prod ∉ names)) by auto.
  destruct (create_fnames env (attrs lcl) cfg prod) as [fnames productname] eqn:Hcf.
  destruct (attrs lcl !! "area_id") as [area_id|] eqn:Haid; [|done].
  simpl in *. rewrite bind_mret.
  apply andb_prop in Hok as [Hlen%bool_decide_eq_true Hst%orb_prop].
  destruct (scene_getitem_is_Some lcl prod Hin) as [dset Hds].
  rewrite Hds in Hacc |- *.
  destruct Hst as [->%bool_decide_eq_true|[start_time Hs]%bool_decide_eq_true].
  - simpl.
    by destruct (_topic w), (attrs lcl !! "start_time"); rewrite extend_nil.
  - rewrite Hs in Hacc |- *.
    rewrite (fnames_exact lcl (attrs lcl) prod productname _ kwargs dset start_time);
      [|simpl; lia|done|done|].
    + by rewrite drop_0.
    + by destruct (_topic w).
Qed.

Lemma products_exact item kwargs prods : ∀ i w,
  forallb
    (λ prod, bool_decide (prod ∉ ds_name <$> datasets (scene item))
             || product_ok env (scene item) (product_config (extra_metadata item)) prod)
    prods = true →
  forallb (accepted env)
    (item_messages env (_topic w) (_publish_vars w) (with_products prods item))
    = true →
  for_enumerate
    (process_product env (scene item) (attrs (scene item))
       (product_config (extra_metadata item)) (ds_name <$> datasets (scene item))
       kwargs) i prods w
  = (extend (item_writes env kwargs (with_products prods item))
       (item_messages env (_topic w) (_publish_vars w) (with_products prods item)) w,
     EvSave <$> item_writes env kwargs (with_products prods item),
     inr tt).
Proof.
  induction prods as [|prod prods IH]; intros i w Hok Hacc.
  - simpl. by rewrite extend_nil.
  - simpl in Hok. apply andb_prop in Hok as [Hp Hps].
    unfold item_messages in Hacc. simpl in Hacc.
    rewrite forallb_app in Hacc. apply andb_prop in Hacc as [Ha Has].
    simpl. unfold mbind at 1, M_bind at 1.
    rewrite (process_product_exact item kwargs i prod w Hp Ha). cbv zeta.
    rewrite IH by done. simpl. rewrite extend_extend.
    unfold item_writes, item_messages. simpl. by rewrite fmap_app.
Qed.

Lemma _process_exact item kwargs w :
  item_ok env item = true →
  messages_ok env (_topic w) (_publish_vars w) item = true →
  _process env item kwargs w
  = (extend (item_writes env kwargs item)
       (item_messages env (_topic w) (_publish_vars w) item) w,
     EvSave <$> item_writes env kwargs item,
     inr tt).
Proof.
  intros Hok Hacc. unfold _process, item_ok, messages_ok in *.
  rewrite (products_exact item kwargs _ 0 w Hok).
  - by destruct item as [lcl [cfg prods]].
  - by destruct item as [lcl [cfg prods]].
Qed.

Lemma product_writes_pairs lcl cfg kwargs prod :
  product_ok env lcl cfg prod = true →
  write_pair <$> product_writes env lcl cfg kwargs prod
  = (λ fname, ([prod], fname)) <$> (create_fnames env (attrs lcl) cfg prod).1.
Proof.
  unfold product_ok, product_writes.
  destruct (attrs lcl !! "area_id") as [area_id|]; [|done].
  intros [Hlen%bool_decide_eq_true _]%andb_prop.
  revert Hlen. generalize (get_writer_names env cfg prod area_id).
  induction (create_fnames env (attrs lcl) cfg prod).1 as [|fname fnames IH];
    intros [|writer writers] Hlen; simpl in *; try done; [lia|].
  f_equal. apply IH. lia.
Qed.

(** X1. On a well-formed item all of whose messages posttroll accepts (as
    it does all of them when no topic template is configured, there being
    none), [_process] raises nothing and amounts to appending the writes of
    the item to [self.data] and its messages to [self.messages], staging
    each write once and nothing else, in the order of the products and,
    within a product, of the file names: the j-th file name of a product is
    written by its j-th writer name. *)
Theorem X1_process_amounts_to_appending item kwargs w :
  item_ok env item = true →
  messages_ok env (_topic w) (_publish_vars w) item = true →
  _process env item kwargs w
  = (extend (item_writes env kwargs item)
       (item_messages env (_topic w) (_publish_vars w) item) w,
     EvSave <$> item_writes env kwargs item,
     inr tt) ∧
  write_pair <$> item_writes env kwargs item = call_of <$> staged_pairs env item.
Proof.
  intros Hok Hacc. split; [by apply _process_exact|]. clear Hacc.
  unfold item_writes, staged_pairs, item_ok in *.
  induction (products (extra_metadata item)) as [|prod prods IH]; [done|].
  simpl in Hok. apply andb_prop in Hok as [Hp Hps].
  rewrite !bind_cons, !fmap_app, IH by done. f_equal.
  destruct (decide (prod ∈ ds_name <$> datasets (scene item))) as [Hin|Hout].
  - rewrite bool_decide_eq_true_2 by done.
    rewrite (bool_decide_eq_false_2 (prod ∉ _)) in Hp by auto. simpl in Hp.
    rewrite product_writes_pairs by done. by rewrite <- list_fmap_compose.
  - by rewrite bool_decide_eq_false_2.
Qed.

End Exact.

(** ** A batch that goes well, event by event *)

Section ExactBatch.
Context (env : Collaborators).

Lemma batch_exact kwargs items : ∀ w rest,
  forallb (item_ok env) items = true →
  forallb (messages_ok env (_topic w) (_publish_vars w)) items = true →
  queue w = Some ((Data <$> items) ++ EndOfBatch :: rest) →
  _loop w = true →
  (data w ++ (items ≫= item_writes env kwargs) ≠ [] →
   compute_writer_results env (data w ++ (items ≫= item_writes env kwargs)) = None) →
  loop env (S (length items)) kwargs w
  = (set_messages [] (set_data [] (set_queue (Some rest) w)),
     batch_events env kwargs w items, inr tt).
Proof.
  induction items as [|d items IH]; intros w rest Hok Hacc Hq Hl Hc.
  - simpl in Hq. change (S (length (@nil DataItem))) with 1.
    rewrite loop_1, (iteration_sentinel env kwargs w rest Hq) by done.
    unfold batch_events, flush_events. simpl in *. rewrite !app_nil_r in *.
    destruct (data w) as [|dw ds]; [done|].
    by rewrite Hc.
  - rewrite fmap_cons, <- app_comm_cons in Hq.
    simpl in Hok. apply andb_prop in Hok as [Hd Hi].
    simpl in Hacc. apply andb_prop in Hacc as [Hda Hia].
    change (S (length (d :: items))) with (S (S (length items))).
    rewrite loop_S by done. unfold mbind, M_bind.
    rewrite (iteration_data env kwargs w d _ Hq). cbv zeta.
    rewrite (_process_exact env d kwargs _ Hd) by exact Hda.
    unfold state_of, trace_of, result_of. cbn [fst snd].
    set (w1 := extend _ _ _).
    rewrite (IH w1 rest Hi Hia eq_refl Hl).
    + f_equal. f_equal. unfold batch_events, pass_events.
      rewrite bind_cons. simpl. rewrite <- !app_assoc. simpl.
      by rewrite <- !app_assoc.
    + subst w1. simpl. rewrite <- !app_assoc. by rewrite bind_cons in Hc.
Qed.

Lemma header_split item w tail :
  EvGet item :: acquire_events w ++ EvTaskDone :: tail
  = (EvGet item :: acquire_events w ++ [EvTaskDone]) ++ tail.
Proof. simpl. by rewrite <- app_assoc. Qed.

Lemma saves_pass_events kwargs w items :
  saves (item ← items; pass_events w item (item_writes env kwargs item))
  = items ≫= item_writes env kwargs.
Proof.
  induction items as [|d items IH]; [done|].
  rewrite !bind_cons, saves_app, IH. f_equal.
  unfold pass_events. by rewrite saves_item_pass, saves_release_events, app_nil_r.
Qed.

Lemma sends_pass_events kwargs w items :
  sends (item ← items; pass_events w item (item_writes env kwargs item)) = [].
Proof.
  induction items as [|d items IH]; [done|].
  rewrite !bind_cons, sends_app, IH, app_nil_r.
  unfold pass_events. by rewrite sends_item_pass, sends_release_events.
Qed.

(** X2. When every item of a batch is well-formed, posttroll accepts the
    messages of every item and the write delegate completes the writes of
    the batch (it is not called when there are none), the passes of the
    batch end normally with an empty accumulator and the rest of the
    queue, and their events are: for every item its
    pass with its writes staged, then the sentinel's pass with one call of
    the delegate on all the writes of the batch in order and, after its
    return, the messages of the batch in order. *)
Theorem X2_batch_event_by_event kwargs w items rest :
  forallb (item_ok env) items = true →
  forallb (messages_ok env (_topic w) (_publish_vars w)) items = true →
  (items ≫= item_writes env kwargs ≠ [] →
   compute_writer_results env (items ≫= item_writes env kwargs) = None) →
  let w0 := batch_start w items rest in
  let o := loop env (S (length items)) kwargs w0 in
  o = (set_messages [] (set_data [] (set_queue (Some rest) w0)),
       batch_events env kwargs w0 items, inr tt) ∧
  saves (trace_of o) = items ≫= item_writes env kwargs ∧
  sends (trace_of o) =
    match items ≫= item_writes env kwargs with
    | [] => []
    | _ :: _ => msg_str env <$> (items ≫= item_messages env (_topic w) (_publish_vars w))
    end.
Proof.
  intros Hok Hacc Hc w0 o.
  assert (o = (set_messages [] (set_data [] (set_queue (Some rest) w0)),
               batch_events env kwargs w0 items, inr tt)) as Ho.
  { subst o. by apply batch_exact. }
  split; [done|]. rewrite Ho. unfold trace_of, batch_events. cbn [fst snd].
  change (data w0) with (@nil DeferredWrite).
  change (messages w0) with (@nil Message).
  change (_topic w0) with (_topic w). change (_publish_vars w0) with (_publish_vars w).
  rewrite !app_nil_l.
  rewrite saves_app, sends_app, saves_pass_events, sends_pass_events.
  rewrite header_split. split.
  - by rewrite saves_app, saves_header, saves_flush_events, app_nil_r.
  - by rewrite sends_app, sends_header, sends_flush_events.
Qed.

End ExactBatch.

(** ** Any run: the lock, the queue, the flush *)

Section RunProperties.
Context (env : Collaborators).

Lemma omap_EvSave {A} (f : event → option A) D :
  (∀ d, f (EvSave d) = None) → omap f (EvSave <$> D) = [].
Proof. intros Hf. induction D as [|d D IH]; simpl; [done|]. by rewrite Hf. Qed.

Lemma omap_send_events {A} (f : event → option A) msgs :
  (∀ wire, f (EvSend wire) = None) → omap f (send_events env msgs) = [].
Proof. intros Hf. induction msgs as [|m msgs IH]; simpl; [done|]. by rewrite Hf. Qed.

Lemma omap_acquire_events {A} (f : event → option A) w :
  (∀ l, f (EvAcquire l) = None) → omap f (acquire_events w) = [].
Proof.
  intros Hf. unfold acquire_events. destruct (prev_lock w); simpl; [|done].
  by rewrite Hf.
Qed.

Lemma omap_release_events {A} (f : event → option A) w :
  (∀ ls, f (EvRelease ls) = None) → omap f (release_events w) = [].
Proof.
  intros Hf. unfold release_events. destruct (prev_lock w); simpl; [|done].
  by rewrite Hf.
Qed.

Lemma without_lock_events t :
  Forall (λ e, ¬ is_lock_event e) t → acquired t = [] ∧ released t = [].
Proof.
  induction 1 as [|e t He _ [IHa IHr]]; [done|].
  destruct e; simpl in *; try done; tauto.
Qed.

Lemma iteration_lock_balance kwargs w :
  let o := iteration env kwargs w in
  acquired (trace_of o)
  = released (trace_of o) ++
    match result_of o with
    | inl _ => option_list (prev_lock w)
    | inr _ => []
    end.
Proof.
  intros o. subst o. destruct (queue w) as [[|item rest]|] eqn:Hq.
  - by rewrite iteration_empty.
  - destruct (prev_lock w) as [l|] eqn:Hl.
    + destruct (iteration_lock_events env kwargs w l item rest Hl Hq) as [-> ->].
      by destruct (result_of _).
    + destruct (without_lock_events _ (iteration_without_lock env kwargs w Hl))
        as [-> ->].
      by destruct (result_of _).
  - by rewrite iteration_unbound.
Qed.

(** X3. In any run of the loop the locks acquired are the locks released,
    in the same order, when the run ends normally; when it ends with an
    exception, the configured lock was acquired once more than it was
    released: it is left held. *)
Theorem X3_lock_accounting fuel kwargs w :
  let o := loop env fuel kwargs w in
  acquired (trace_of o)
  = released (trace_of o) ++
    match result_of o with
    | inl _ => option_list (prev_lock w)
    | inr _ => []
    end.
Proof.
  revert w. induction fuel as [|fuel IH]; intros w o; subst o; [done|].
  simpl. rewrite bind_gets. destruct (_loop w); [|done].
  pose proof (iteration_lock_balance kwargs w) as Hit. cbv zeta in Hit.
  destruct (iteration_configuration env kwargs w) as (_ & _ & _ & Hp & _).
  unfold mbind, M_bind.
  destruct (iteration env kwargs w) as [[w1 t1] [e|[]]];
    unfold state_of, trace_of, result_of in *; simpl in *; [done|].
  specialize (IH w1). cbv zeta in IH.
  destruct (loop env fuel kwargs w1) as [[w2 t2] r]. simpl in *.
  rewrite acquired_app, released_app, Hit, IH, Hp, app_nil_r.
  by rewrite <- app_assoc.
Qed.

Lemma iteration_taken kwargs w q :
  queue w = Some q →
  let o := iteration env kwargs w in
  taken (trace_of o) = take 1 q ∧
  task_dones (trace_of o) = (λ _, tt) <$> take 1 q ∧
  queue (state_of o) = Some (drop 1 q).
Proof.
  intros Hq o. subst o. destruct q as [|[|d] rest].
  - by rewrite iteration_empty.
  - rewrite (iteration_sentinel env kwargs w rest Hq).
    unfold taken, task_dones, trace_of, state_of.
    destruct (data w) as [|dw ds]; simpl;
      [|destruct (compute_writer_results env (dw :: ds)); simpl];
      rewrite ?omap_app, ?omap_acquire_events, ?omap_release_events,
        ?omap_send_events by done; simpl;
      rewrite ?omap_app, ?omap_acquire_events, ?omap_release_events,
        ?omap_send_events by done; done.
  - rewrite (iteration_data env kwargs w d rest Hq). cbv zeta.
    destruct (_process_staged env d kwargs (set_queue (Some rest) w))
      as (D & Ms & Hst & Htr & _).
    unfold taken, task_dones, trace_of, state_of in *. simpl in *.
    rewrite Hst, Htr.
    rewrite !omap_app, !omap_acquire_events by done. simpl.
    rewrite !omap_app, !omap_EvSave by done.
    destruct (result_of _); simpl; by rewrite ?omap_release_events.
Qed.

(** X4. The loop takes the items in the order of the queue, one per pass,
    and calls [task_done] once for each item taken; an item is taken off the
    queue and marked done also when dealing with it raises. After [k]
    passes the first [k] items are taken ([k] is the fuel when the loop is
    running and nothing raises). *)
Theorem X4_items_taken_in_order fuel kwargs : ∀ w q,
  queue w = Some q →
  let o := loop env fuel kwargs w in
  ∃ k, k ≤ fuel ∧
    taken (trace_of o) = take k q ∧
    task_dones (trace_of o) = (λ _, tt) <$> take k q ∧
    queue (state_of o) = Some (drop k q) ∧
    (_loop w = true → result_of o = inr tt → k = fuel).
Proof.
  induction fuel as [|fuel IH]; intros w q Hq o; subst o.
  - exists 0. by rewrite take_0, drop_0.
  - simpl. rewrite bind_gets. destruct (_loop w) eqn:Hl.
    2:{ exists 0. rewrite take_0, drop_0. repeat split; try done. lia. }
    destruct (iteration_taken kwargs w q Hq) as (Ht & Hd & Hq1).
    destruct (iteration_configuration env kwargs w) as (Hl1 & _).
    unfold mbind, M_bind.
    destruct (iteration env kwargs w) as [[w1 t1] [e|[]]];
      unfold state_of, trace_of, result_of in *; simpl in *.
    { exists 1. repeat split; try done. lia. }
    destruct (IH w1 (drop 1 q) Hq1) as (k & Hk & Ht2 & Hd2 & Hq2 & Hfull).
    destruct (loop env fuel kwargs w1) as [[w2 t2] r]. simpl in *.
    exists (1 + k). unfold taken, task_dones in *.
    rewrite !omap_app, Ht, Hd, Ht2, Hd2, Hq2.
    rewrite <- fmap_app, take_take_drop, drop_drop.
    repeat split; try done; [lia|].
    intros _ Hr. rewrite Hfull; [done|congruence|done].
Qed.

(** X5. A running loop with nothing to take only polls: with an empty
    queue every pass is a timed-out [get], with no queue bound every pass is
    a sleep, and the worker is left as it was, its lock never touched. *)
Theorem X5_idle_loop_only_polls fuel kwargs w :
  _loop w = true →
  (queue w = Some [] →
     loop env fuel kwargs w = (w, replicate fuel EvEmpty, inr tt)) ∧
  (queue w = None →
     loop env fuel kwargs w = (w, replicate fuel EvSleep, inr tt)).
Proof.
  intros Hl. split; intros Hq; induction fuel as [|fuel IH]; try done.
  - rewrite loop_S by done. unfold mbind, M_bind.
    by rewrite iteration_empty, IH.
  - rewrite loop_S by done. unfold mbind, M_bind.
    by rewrite iteration_unbound, IH.
Qed.

(** X6. As long as only data items are taken, nothing is flushed: no call
    of the write delegate, no send, and the accumulator only grows,
    whatever the number of items and of passes. *)
Theorem X6_no_flush_without_sentinel fuel kwargs : ∀ w items,
  queue w = Some (Data <$> items) →
  let o := loop env fuel kwargs w in
  Forall (λ e, ¬ is_flush_event e) (trace_of o) ∧
  ∃ D Ms, data (state_of o) = data w ++ D ∧
          messages (state_of o) = messages w ++ Ms ∧
          saves (trace_of o) = D.
Proof.
  induction fuel as [|fuel IH]; intros w items Hq o; subst o.
  - split; [done|]. exists [], []. by rewrite !app_nil_r.
  - simpl. rewrite bind_gets. destruct (_loop w).
    2:{ split; [done|]. exists [], []. by rewrite !app_nil_r. }
    unfold mbind, M_bind. destruct items as [|d items].
    + rewrite iteration_empty by done.
      destruct (IH w [] Hq) as (Hno & D & Ms & HD & HMs & Hs).
      destruct (loop env fuel kwargs w) as [[w2 t2] r].
      unfold state_of, trace_of in *. simpl in *.
      split; [constructor; [simpl; tauto|done]|]. by exists D, Ms.
    + rewrite fmap_cons in Hq.
      rewrite (iteration_data env kwargs w d _ Hq). cbv zeta.
      destruct (_process_staged env d kwargs (set_queue (Some (Data <$> items)) w))
        as (D1 & Ms1 & Hst & Htr & _).
      assert (Forall (λ e, ¬ is_flush_event e)
                (EvGet (Data d) :: acquire_events w ++ EvTaskDone ::
                   (EvSave <$> D1) ++ release_events w)) as Hpass.
      { constructor; [tauto|]. apply Forall_app. split.
        { unfold acquire_events. destruct (prev_lock w); repeat constructor; tauto. }
        constructor; [tauto|]. apply Forall_app. split.
        { apply Forall_fmap, Forall_forall. intros; simpl; tauto. }
        unfold release_events. destruct (prev_lock w); repeat constructor; tauto. }
      destruct (_process env d kwargs _) as [[w1 t1] [e|[]]];
        unfold state_of, trace_of, result_of in *; simpl in *; subst w1 t1.
      * rewrite app_nil_r in *. split.
        { inversion Hpass as [|? ? _ Hrest]; subst. constructor; [tauto|].
          apply Forall_app in Hrest as [Ha Hrest]. apply Forall_app. split; [done|].
          inversion Hrest as [|? ? _ Hrest']; subst. constructor; [tauto|].
          by apply Forall_app in Hrest' as [? _]. }
        exists D1, Ms1. repeat split; try done.
        rewrite saves_app, saves_acquire_events.
        change (EvTaskDone :: (EvSave <$> D1)) with ([EvTaskDone] ++ (EvSave <$> D1)).
        by rewrite saves_app, saves_EvSave.
      * destruct (IH (extend D1 Ms1 (set_queue (Some (Data <$> items)) w)) items eq_refl)
          as (Hno & D & Ms & HD & HMs & Hs).
        destruct (loop env fuel kwargs _) as [[w2 t2] r]. cbn [fst snd] in *.
        set (tp := EvGet (Data d) :: acquire_events w ++ EvTaskDone ::
                     (EvSave <$> D1) ++ release_events w) in *.
        change (Forall (λ e, ¬ is_flush_event e) (tp ++ t2) ∧
                ∃ D0 Ms0, data w2 = data w ++ D0 ∧ messages w2 = messages w ++ Ms0 ∧
                          saves (tp ++ t2) = D0).
        split; [by apply Forall_app|].
        exists (D1 ++ D), (Ms1 ++ Ms). rewrite !app_assoc.
        repeat split; try done.
        subst tp.
        rewrite saves_app, saves_item_pass, saves_release_events, app_nil_r.
        by rewrite Hs.
Qed.

End RunProperties.

(** ** What [_process] raises *)

Section ProcessErrors.
Context (env : Collaborators).

Lemma products_without_area_id lcl scn_metadata cfg names kwargs prods : ∀ i w,
  scn_metadata !! "area_id" = None →
  for_enumerate (process_product env lcl scn_metadata cfg names kwargs) i prods w
  = if bool_decide (Exists (λ prod, prod ∈ names) prods)
    then (w, [], inl (KeyError "area_id"))
    else (w, [], inr tt).
Proof.
  induction prods as [|prod prods IH]; intros i w Haid.
  - by rewrite bool_decide_eq_false_2 by (by intros ?%Exists_nil).
  - cbn [for_enumerate]. destruct (decide (prod ∈ names)) as [Hin|Hout].
    + rewrite bool_decide_eq_true_2 by (by left).
      unfold mbind, M_bind, process_product.
      rewrite (bool_decide_eq_false_2 (prod ∉ names)) by auto.
      destruct (create_fnames env scn_metadata cfg prod) as [fnames productname].
      by rewrite Haid.
    + rewrite process_product_absent, bind_mret, IH by done.
      destruct (decide (Exists (λ prod, prod ∈ names) prods)) as [Hex|Hno].
      * rewrite !bool_decide_eq_true_2; [done|by right|done].
      * rewrite !bool_decide_eq_false_2; [done| |done].
        by intros [?|?]%Exists_cons.
Qed.

(** X7. When the scene metadata have no ["area_id"], [_process] raises
    [KeyError] as soon as it meets a product that the scene has, before any
    write is staged; when the scene has none of the products it ends
    normally. Either way the worker is left as it was. *)
Theorem X7_missing_area_id item kwargs w :
  attrs (scene item) !! "area_id" = None →
  _process env item kwargs w
  = if bool_decide (Exists (λ prod, prod ∈ ds_name <$> datasets (scene item))
                      (products (extra_metadata item)))
    then (w, [], inl (KeyError "area_id"))
    else (w, [], inr tt).
Proof. intros Haid. unfold _process. by apply products_without_area_id. Qed.

Lemma raise_bind {B} (e : exn) (k : unit → M B) w w' t (m : M unit) :
  m w = (w', t, inl e) → (m ≫= k) w = (w', t, inl e).
Proof. intros Hm. unfold mbind, M_bind. by rewrite Hm. Qed.



Lemma for_enumerate_app {A} (body : nat → A → M unit) l1 : ∀ l2 i w,
  for_enumerate body i (l1 ++ l2) w
  = (for_enumerate body i l1;; for_enumerate body (i + length l1) l2) w.
Proof.
  induction l1 as [|x l1 IH]; intros l2 i w.
  - simpl. by rewrite bind_mret, Nat.add_0_r.
  - simpl. unfold mbind, M_bind.
    destruct (body i x w) as [[w1 t1] [e|[]]]; [done|].
    rewrite IH. unfold mbind, M_bind.
    destruct (for_enumerate body (S i) l1 w1) as [[w2 t2] [e|[]]]; [done|].
    rewrite Nat.add_succ_r. simpl.
    destruct (for_enumerate body (S (i + length l1)) l2 w2) as [[w3 t3] r].
    by rewrite app_assoc.
Qed.

Lemma zip_with_take_r {A B C} (f : A → B → C) (l : list A) (k : list B) :
  zip_with f (take (length k) l) k = zip_with f l k.
Proof.
  revert k. induction l as [|x l IH]; intros [|y k]; simpl; try done.
  by rewrite IH.
Qed.

(** A product that the scene has and that is given fewer writer names than
    file names, at any place among the products. *)
Lemma process_product_too_few item kwargs i w prod area_id start_time :
  let lcl := scene item in
  let cfg := product_config (extra_metadata item) in
  let writers := get_writer_names env cfg prod area_id in
  prod ∈ ds_name <$> datasets lcl →
  attrs lcl !! "area_id" = Some area_id →
  attrs lcl !! "start_time" = Some start_time →
  length writers < length (create_fnames env (attrs lcl) cfg prod).1 →
  forallb (accepted env)
    (take (length writers)
       (product_messages env lcl cfg (_topic w) (_publish_vars w) prod)) = true →
  process_product env lcl (attrs lcl) cfg (ds_name <$> datasets lcl) kwargs i prod w
  = (extend (product_writes env lcl cfg kwargs prod)
       (take (length writers)
          (product_messages env lcl cfg (_topic w) (_publish_vars w) prod)) w,
     EvSave <$> product_writes env lcl cfg kwargs prod, inl IndexError).
Proof.
  intros lcl cfg writers Hin Haid Hst Hlen Hacc.
  destruct (scene_getitem_is_Some _ _ Hin) as [dset Hds].
  unfold product_writes. unfold product_messages in Hacc |- *.
  rewrite Hst, Hds in Hacc |- *. rewrite Haid. fold writers.
  unfold process_product. rewrite bool_decide_eq_false_2 by auto.
  destruct (create_fnames env (attrs lcl) cfg prod) as [fnames productname] eqn:Hcf.
  simpl in *. rewrite Haid. simpl. rewrite bind_mret. fold writers.
  rewrite <- (take_drop (length writers) fnames) at 1.
  rewrite for_enumerate_app.
  unfold mbind at 1, M_bind at 1.
  rewrite (fnames_exact env lcl (attrs lcl) prod productname writers kwargs dset
             start_time); [|rewrite ?length_take; lia|done|done|].
  2:{ cbv zeta. destruct (_topic w); [|done]. by rewrite fmap_take. }
  cbv zeta.
  rewrite drop_0, zip_with_take_r. simpl.
  destruct (drop (length writers) fnames) as [|fname rest] eqn:Hdrop.
  { apply (f_equal length) in Hdrop. rewrite length_drop in Hdrop. simpl in Hdrop. lia. }
  simpl. unfold mbind at 1, M_bind at 1. unfold process_fname at 1.
  unfold mbind at 1, M_bind at 1, from_option, raise.
  rewrite lookup_ge_None_2 by (rewrite length_take; lia).
  rewrite !app_nil_r. do 2 f_equal.
  destruct (_topic w); [by rewrite fmap_take|by rewrite take_nil].
Qed.

(** X9. When the products before it are well-formed with messages that
    posttroll accepts, and a product that the scene has is given fewer
    writer names than file names, the earlier products are staged in full,
    the files of that product that have a writer name are staged with their
    messages (these accepted too), and at its first file without a writer
    name [_process] raises [IndexError], before staging it; the later
    products are not reached. *)
Theorem X9_too_few_writers item kwargs w before prod after area_id start_time :
  let lcl := scene item in
  let cfg := product_config (extra_metadata item) in
  let writers := get_writer_names env cfg prod area_id in
  let earlier := with_products before item in
  products (extra_metadata item) = before ++ prod :: after →
  item_ok env earlier = true →
  messages_ok env (_topic w) (_publish_vars w) earlier = true →
  prod ∈ ds_name <$> datasets lcl →
  attrs lcl !! "area_id" = Some area_id →
  attrs lcl !! "start_time" = Some start_time →
  length writers < length (create_fnames env (attrs lcl) cfg prod).1 →
  forallb (accepted env)
    (take (length writers)
       (product_messages env lcl cfg (_topic w) (_publish_vars w) prod)) = true →
  let writes := item_writes env kwargs earlier ++ product_writes env lcl cfg kwargs prod in
  let msgs :=
    item_messages env (_topic w) (_publish_vars w) earlier ++
    take (length writers)
      (product_messages env lcl cfg (_topic w) (_publish_vars w) prod) in
  _process env item kwargs w = (extend writes msgs w, EvSave <$> writes, inl IndexError) ∧
  length (product_writes env lcl cfg kwargs prod) = length writers.
Proof.
  intros lcl cfg writers earlier Hp Hok Hmsg Hin Haid Hst Hlen Hacc writes msgs.
  split.
  2:{ unfold product_writes. rewrite Haid. fold writers.
      rewrite length_zip_with. lia. }
  unfold _process. rewrite Hp.
  rewrite for_enumerate_app. unfold mbind at 1, M_bind at 1.
  rewrite (products_exact env item kwargs before 0 w Hok Hmsg).
  fold earlier. cbn [for_enumerate].
  set (w1 := extend (item_writes env kwargs earlier) _ w).
  rewrite (raise_bind IndexError _ _ _ _ _
             (process_product_too_few item kwargs (0 + length before) w1 prod
                area_id start_time Hin Haid Hst Hlen Hacc)).
  subst writes msgs w1. by rewrite extend_extend, fmap_app.
Qed.

End ProcessErrors.

(** ** Products with an area *)

Section Area.
Context (env : Collaborators).

Lemma area_data_of_Some area name area_id proj_id proj4 x_size y_size :
  getattr area "name" = Some name →
  getattr area "area_id" = Some area_id →
  getattr area "proj_id" = Some proj_id →
  getattr area "proj4_string" = Some proj4 →
  getattr area "x_size" = Some x_size →
  getattr area "y_size" = Some y_size →
  area_data_of area
  = Some {[ "name" := name; "area_id" := area_id; "proj_id" := proj_id;
            "proj4" := proj4; "shape" := VTuple [x_size; y_size] ]}.
Proof. intros H1 H2 H3 H4 H5 H6. unfold area_data_of. by rewrite H1, H2, H3, H4, H5, H6. Qed.

(** X10. Every message that [_process] records for a product whose area
    has the six attributes read has under [area] the dict of the name, the
    area and projection identifiers, the projection string (as [proj4]) and
    the shape (x size, then y size), and its topic is the template composed
    with that dict. With a topic template there is one message per
    (product, filename) pair when processing ends normally, as it does on a
    well-formed item whose messages posttroll accepts. *)
Theorem X10_area_in_payload_and_topic item kwargs w :
  let o := _process env item kwargs w in
  ∃ Ms, messages (state_of o) = messages w ++ Ms ∧
    (is_Some (_topic w) → result_of o = inr tt →
       length Ms = length (staged_pairs env item)) ∧
    (item_ok env item = true →
     messages_ok env (_topic w) (_publish_vars w) item = true →
     result_of o = inr tt) ∧
    Forall (λ msg, ∃ prod fname dset topic,
      (prod, fname) ∈ staged_pairs env item ∧
      scene_getitem (scene item) prod = Some dset ∧
      _topic w = Some topic ∧
      msg_data msg !! "uid" = Some (VStr (basename env fname)) ∧
      ∀ name area_id proj_id proj4 x_size y_size,
        getattr (ds_area dset) "name" = Some name →
        getattr (ds_area dset) "area_id" = Some area_id →
        getattr (ds_area dset) "proj_id" = Some proj_id →
        getattr (ds_area dset) "proj4_string" = Some proj4 →
        getattr (ds_area dset) "x_size" = Some x_size →
        getattr (ds_area dset) "y_size" = Some y_size →
        let area_data : dict :=
          {[ "name" := name; "area_id" := area_id; "proj_id" := proj_id;
             "proj4" := proj4; "shape" := VTuple [x_size; y_size] ]} in
        msg_data msg !! "area" = Some (VDict area_data) ∧
        msg_subject msg = compose env topic area_data) Ms.
Proof.
  intros o. subst o.
  destruct (_process_staged env item kwargs w)
    as (D & Ms & Hst & _ & _ & HMs & _ & Hlen & Hexp & Hok).
  exists Ms. rewrite Hst. split; [done|]. split; [|split; [by auto|]].
  { intros Ht Hr. rewrite Hlen by done.
    by rewrite <- (length_fmap write_pair), Hexp, length_fmap. }
  eapply Forall_impl; [exact HMs|].
  intros msg (prod & fname & topic & start_time & dset & Hin & Ht & Hs & Hd & ->).
  exists prod, fname, dset, topic. simpl.
  pose proof (to_send_fix_lookup env start_time fname (area_data_of (ds_area dset))
                (create_fnames env (attrs (scene item))
                   (product_config (extra_metadata item)) prod).2
                (select_dict_items env (attrs (scene item)) (_publish_vars w))) as Hl.
  cbv zeta in Hl. destruct Hl as (_ & Huid & _ & Harea & _).
  do 4 (split; [done|]).
  intros name area_id proj_id proj4 x_size y_size H1 H2 H3 H4 H5 H6.
  rewrite Harea.
  by rewrite (area_data_of_Some _ name area_id proj_id proj4 x_size y_size).
Qed.

End Area.

(** ** The container over its histories *)

Section ContainerProperties.
Context (env : Collaborators).

Lemma init_writer_lock q c :
  prev_lock (writer (_init_writer q c)) = _prev_lock (_init_writer q c) ∧
  _prev_lock (_init_writer q c) = _prev_lock c ∧
  use_lock (_init_writer q c) = use_lock c.
Proof. unfold _init_writer, start_thread. simpl. by destruct (c_save_settings c). Qed.

Lemma perform_lock_agreement a c :
  prev_lock (writer c) = _prev_lock c →
  prev_lock (writer (perform env a c).1) = _prev_lock (perform env a c).1 ∧
  use_lock (perform env a c).1 = use_lock c.
Proof.
  intros Hag. destruct a as [l|q| |item|]; simpl; try done.
  - unfold prev_lock_setter. by destruct (use_lock c) eqn:Hu; simpl; rewrite ?Hu.
  - unfold restart.
    destruct (init_writer_lock
                (queue (writer (if _loop (writer c) then stop c else c)))
                (if _loop (writer c) then stop c else c)) as (-> & -> & ->).
    by destruct (_loop (writer c)).
  - unfold worker_pass. destruct (thread c) as [[kwargs|e]|]; try done.
    destruct (_loop (writer c)); [|done].
    destruct (iteration_configuration env kwargs (writer c)) as (_ & _ & _ & Hp & _).
    destruct (iteration env kwargs (writer c)) as [[w1 t1] [e|[]]];
      unfold state_of in *; simpl in *; split; congruence.
Qed.

(** X11. Over any history of a container, whatever [use_lock], the lock
    reference that the container stores and the one that its worker uses
    are the same, and [use_lock] is as given at construction; with
    [use_lock] set, assigning a lock to [prev_lock] puts it in both. *)
Theorem X11_lock_references_agree tpc port nameservers save_settings use_lck
    publish_vars acts :
  let c := (perform_all env acts
              (DataWriterContainer_init tpc port nameservers save_settings
                 use_lck publish_vars)).1 in
  prev_lock (writer c) = _prev_lock c ∧
  use_lock c = use_lck ∧
  (use_lck = true → ∀ l,
     _prev_lock (prev_lock_setter l c) = l ∧
     prev_lock (writer (prev_lock_setter l c)) = l).
Proof.
  intros c.
  assert (prev_lock (writer c) = _prev_lock c ∧ use_lock c = use_lck) as [Hag Hu].
  { subst c.
    assert (∀ c0, prev_lock (writer c0) = _prev_lock c0 →
              prev_lock (writer (perform_all env acts c0).1)
              = _prev_lock (perform_all env acts c0).1 ∧
              use_lock (perform_all env acts c0).1 = use_lock c0) as Hall.
    { induction acts as [|a acts IH]; intros c0 H0; simpl; [done|].
      destruct (perform_lock_agreement a c0 H0) as [H1 Hu1].
      destruct (perform env a c0) as [c1 t1]. simpl in *.
      destruct (IH c1 H1) as [H2 Hu2].
      destruct (perform_all env acts c1) as [c2 t2]. simpl in *.
      split; congruence. }
    set (c0 := DataWriterContainer_init tpc port nameservers save_settings
                 use_lck publish_vars).
    assert (prev_lock (writer c0) = _prev_lock c0 ∧ use_lock c0 = use_lck) as [H0 Hu0].
    { subst c0. unfold DataWriterContainer_init, _init_writer, start_thread. simpl.
      by destruct save_settings. }
    destruct (Hall c0 H0) as [H1 Hu1]. split; congruence. }
  split; [done|]. split; [done|]. intros Htrue l.
  unfold prev_lock_setter. by rewrite Hu, Htrue.
Qed.

Lemma perform_dead a c :
  c_save_settings c = None →
  (∀ kwargs, thread c ≠ Some (Running kwargs)) →
  (perform env a c).2 = [] ∧
  c_save_settings (perform env a c).1 = None ∧
  (∀ kwargs, thread (perform env a c).1 ≠ Some (Running kwargs)).
Proof.
  intros Hs Ht. destruct a as [l|q| |item|]; simpl; try done.
  - unfold prev_lock_setter. by destruct (use_lock c).
  - unfold restart, _init_writer, start_thread, stop.
    by destruct (_loop (writer c)); simpl; rewrite Hs.
  - unfold worker_pass. destruct (thread c) as [[kwargs|e]|] eqn:Hth.
    + by destruct (Ht kwargs).
    + simpl. rewrite Hth. by repeat split.
    + simpl. rewrite Hth. by repeat split.
Qed.

(** X12. [run] without save settings (the default of both constructors)
    raises [AttributeError] before the first pass, the loop flag set; a
    container made without save settings therefore never does anything:
    over any history of assignments, restarts, items put and passes, no
    item is taken, no write staged, no message sent, no lock touched. *)
Theorem X12_no_save_settings_no_work tpc port nameservers use_lck publish_vars
    acts fuel w :
  (_save_settings w = None →
     run env fuel w = (set_loop true w, [], inl (AttributeError "get"))) ∧
  (perform_all env acts
     (DataWriterContainer_init tpc port nameservers None use_lck publish_vars)).2
  = [].
Proof.
  split.
  - intros Hs. unfold run. unfold mbind at 1, M_bind at 1, modify.
    rewrite bind_gets. simpl. by rewrite Hs.
  - assert (∀ c, c_save_settings c = None →
              (∀ kwargs, thread c ≠ Some (Running kwargs)) →
              (perform_all env acts c).2 = []) as Hall.
    { induction acts as [|a acts IH]; intros c Hs Ht; simpl; [done|].
      destruct (perform_dead a c Hs Ht) as (Hnil & Hs1 & Ht1).
      destruct (perform env a c) as [c1 t1]. simpl in *.
      specialize (IH c1 Hs1 Ht1).
      destruct (perform_all env acts c1) as [c2 t2]. simpl in *.
      by rewrite Hnil, IH. }
    by apply Hall.
Qed.

(** X13. [restart] forgets the accumulator of the worker it replaces: its
    result is the same whatever writes and messages that worker held, and
    the new worker starts with none, on the same queue, with the
    container's lock reference, its loop flag set. *)
Theorem X13_restart_forgets_accumulator c D Ms :
  let c' := restart c in
  restart (with_writer (set_messages Ms (set_data D (writer c))) (thread c) c) = c' ∧
  data (writer c') = [] ∧ messages (writer c') = [] ∧
  queue (writer c') = queue (writer c) ∧
  prev_lock (writer c') = _prev_lock c ∧
  _loop (writer c') = true.
Proof.
  unfold restart, _init_writer, start_thread, stop. simpl.
  destruct (_loop (writer c)); simpl; by destruct (c_save_settings c).
Qed.

(** X14. With [use_lock] set, a lock assigned to [prev_lock] is the one
    that the next pass of the running worker acquires when it takes an
    item, once, and releases when the item is dealt with normally. *)
Theorem X14_assigned_lock_is_used c l kwargs item rest :
  use_lock c = true →
  thread c = Some (Running kwargs) →
  _loop (writer c) = true →
  queue (writer c) = Some (item :: rest) →
  let r := worker_pass env (prev_lock_setter (Some l) c) in
  acquired r.2 = [l] ∧
  (thread r.1 = Some (Running kwargs) → released r.2 = [l]) ∧
  (∀ e, thread r.1 = Some (Crashed e) → released r.2 = []).
Proof.
  intros Hu Ht Hl Hq r. subst r. unfold prev_lock_setter, worker_pass.
  rewrite Hu. simpl. rewrite Ht, Hl.
  destruct (iteration_lock_events env kwargs (set_prev_lock (Some l) (writer c))
              l item rest eq_refl Hq) as [Ha Hr].
  destruct (iteration env kwargs (set_prev_lock (Some l) (writer c)))
    as [[w1 t1] [e|[]]]; unfold trace_of, result_of in *; simpl in *;
    repeat split; try done.
Qed.

End ContainerProperties.

(** ** More concrete runs *)

(** The item of the small pipeline for ["A"] and ["B"] is well-formed and
    its one message is accepted. *)
Lemma X1_witness :
  let item := demo_item ["A"; "B"] in
  let w := demo_writer (Some "/topic") None [] in
  let kwargs := parse_settings ∅ in
  item_ok demo_env item = true ∧
  messages_ok demo_env (_topic w) (_publish_vars w) item = true ∧
  length (item_messages demo_env (_topic w) (_publish_vars w) item) = 1 ∧
  _process demo_env item kwargs w
  = (extend (item_writes demo_env kwargs item)
       (item_messages demo_env (_topic w) (_publish_vars w) item) w,
     EvSave <$> item_writes demo_env kwargs item,
     inr tt) ∧
  write_pair <$> item_writes demo_env kwargs item
  = call_of <$> staged_pairs demo_env item.
Proof.
  intros item w kwargs.
  assert (item_ok demo_env item = true) as Hok by (vm_compute; reflexivity).
  split; [exact Hok|]. split; [reflexivity|]. split; [reflexivity|].
  exact (X1_process_amounts_to_appending demo_env item kwargs w Hok eq_refl).
Defined.

(** A batch of the small pipeline, event by event. *)
Lemma X2_witness :
  let items := [demo_item ["A"; "B"]; demo_item ["A"]] in
  let kwargs := parse_settings ∅ in
  let w := demo_writer (Some "/topic") (Some "previous") [] in
  let w0 := batch_start w items [] in
  let o := loop demo_env (S (length items)) kwargs w0 in
  forallb (item_ok demo_env) items = true ∧
  forallb (messages_ok demo_env (_topic w) (_publish_vars w)) items = true ∧
  o = (set_messages [] (set_data [] (set_queue (Some []) w0)),
       batch_events demo_env kwargs w0 items, inr tt) ∧
  saves (trace_of o) = items ≫= item_writes demo_env kwargs ∧
  sends (trace_of o) =
    match items ≫= item_writes demo_env kwargs with
    | [] => []
    | _ :: _ =>
        msg_str demo_env <$>
          (items ≫= item_messages demo_env (_topic w) (_publish_vars w))
    end.
Proof.
  intros items kwargs w w0 o.
  assert (forallb (item_ok demo_env) items = true) as Hok by (vm_compute; reflexivity).
  split; [exact Hok|]. split; [reflexivity|].
  exact (X2_batch_event_by_event demo_env kwargs w items [] Hok eq_refl
           (λ _, eq_refl)).
Defined.

(** Three passes on a queue of two items. *)
Lemma X4_witness :
  let q := [Data (demo_item ["A"]); EndOfBatch] in
  let w := set_loop true (demo_writer (Some "/topic") None q) in
  let o := loop demo_env 3 (parse_settings ∅) w in
  queue w = Some q ∧
  ∃ k, k ≤ 3 ∧
    taken (trace_of o) = take k q ∧
    task_dones (trace_of o) = (λ _, tt) <$> take k q ∧
    queue (state_of o) = Some (drop k q) ∧
    (_loop w = true → result_of o = inr tt → k = 3).
Proof.
  intros q w o. split; [reflexivity|].
  exact (X4_items_taken_in_order demo_env 3 (parse_settings ∅) w q eq_refl).
Defined.

(** Polling an empty queue. *)
Lemma X5_witness :
  let w := set_loop true (demo_writer None (Some "previous") []) in
  _loop w = true ∧
  (queue w = Some [] →
     loop demo_env 4 (parse_settings ∅) w = (w, replicate 4 EvEmpty, inr tt)) ∧
  (queue w = None →
     loop demo_env 4 (parse_settings ∅) w = (w, replicate 4 EvSleep, inr tt)).
Proof.
  intros w. split; [reflexivity|].
  exact (X5_idle_loop_only_polls demo_env 4 (parse_settings ∅) w eq_refl).
Defined.

(** Data items without a sentinel. *)
Lemma X6_witness :
  let items := [demo_item ["A"]; demo_item ["A"; "B"]] in
  let w := set_loop true (demo_writer (Some "/topic") None (Data <$> items)) in
  let o := loop demo_env 5 (parse_settings ∅) w in
  queue w = Some (Data <$> items) ∧
  Forall (λ e, ¬ is_flush_event e) (trace_of o) ∧
  ∃ D Ms, data (state_of o) = data w ++ D ∧
          messages (state_of o) = messages w ++ Ms ∧
          saves (trace_of o) = D.
Proof.
  intros items w o. split; [reflexivity|].
  exact (X6_no_flush_without_sentinel demo_env 5 (parse_settings ∅) w items eq_refl).
Defined.

(** Metadata without the area identifier. *)
Lemma X7_witness :
  let w := demo_writer (Some "/topic") None [] in
  attrs (scene unlocated_item) !! "area_id" = None ∧
  _process demo_env unlocated_item (parse_settings ∅) w
  = if bool_decide (Exists (λ prod, prod ∈ ds_name <$> datasets (scene unlocated_item))
                      (products (extra_metadata unlocated_item)))
    then (w, [], inl (KeyError "area_id"))
    else (w, [], inr tt).
Proof.
  intros w. split; [reflexivity|].
  exact (X7_missing_area_id demo_env unlocated_item (parse_settings ∅) w eq_refl).
Defined.


(** Two file names, one writer name, for the second of two products; the
    scene does not have the first. *)
Lemma X9_witness :
  let item := demo_item ["B"; "A"] in
  let w := demo_writer (Some "/topic") None [] in
  let kwargs := parse_settings ∅ in
  let writers := get_writer_names two_files_env VNone "A" (VStr "euro4") in
  let writes := product_writes two_files_env demo_scene VNone kwargs "A" in
  let msgs :=
    take (length writers)
      (product_messages two_files_env demo_scene VNone (_topic w)
         (_publish_vars w) "A") in
  length writers < length (create_fnames two_files_env (attrs demo_scene) VNone "A").1 ∧
  length msgs = 1 ∧
  _process two_files_env item kwargs w
  = (extend writes msgs w, EvSave <$> writes, inl IndexError) ∧
  length writes = length writers.
Proof.
  intros item w kwargs writers writes msgs.
  assert ("A" ∈ ds_name <$> datasets (scene item)) as Hin
    by (vm_compute; constructor).
  assert (length writers
          < length (create_fnames two_files_env (attrs demo_scene) VNone "A").1)
    as Hlen by (vm_compute; lia).
  split; [exact Hlen|]. split; [reflexivity|].
  exact (X9_too_few_writers two_files_env item kwargs w ["B"] "A" [] (VStr "euro4")
           (VInt 1200) eq_refl eq_refl eq_refl Hin eq_refl eq_refl Hlen eq_refl).
Defined.

(** A container that uses locks, with an item on its queue. *)
Lemma X14_witness :
  let c := input_queue_setter (Some [Data (demo_item ["A"]); EndOfBatch])
             (DataWriterContainer_init (Some "/topic") 0 NsNone (Some ∅) true None) in
  let kwargs := parse_settings ∅ in
  let r := worker_pass demo_env (prev_lock_setter (Some "previous") c) in
  use_lock c = true ∧
  thread c = Some (Running kwargs) ∧
  acquired r.2 = ["previous"] ∧
  (thread r.1 = Some (Running kwargs) → released r.2 = ["previous"]) ∧
  (∀ e, thread r.1 = Some (Crashed e) → released r.2 = []).
Proof.
  intros c kwargs r. split; [reflexivity|]. split; [reflexivity|].
  exact (X14_assigned_lock_is_used demo_env c "previous" kwargs
           (Data (demo_item ["A"])) [EndOfBatch] eq_refl eq_refl eq_refl eq_refl).
Defined.

(** A product with a full area: its one message carries the area and goes
    to the topic composed with it. *)
Lemma X10_witness :
  let w := demo_writer (Some "/topic") None [] in
  let o := _process demo_env located_item (parse_settings ∅) w in
  result_of o = inr tt ∧
  ∃ msg, messages (state_of o) = [msg] ∧
    msg_subject msg = "/topic/euro4" ∧
    msg_data msg !! "area" =
      Some (VDict {[ "name" := VStr "Europe 4 km"; "area_id" := VStr "euro4";
                     "proj_id" := VStr "ps60n"; "proj4" := VStr "+proj=stere";
                     "shape" := VTuple [VInt 1024; VInt 768] ]}).
Proof.
  intros w o.
  destruct (X10_area_in_payload_and_topic demo_env located_item (parse_settings ∅) w)
    as (Ms & Hm & Hlen & Hok & Hall).
  assert (Hr : result_of o = inr tt) by (apply Hok; reflexivity).
  split; [exact Hr|].
  specialize (Hlen (ex_intro _ "/topic" eq_refl) Hr).
  destruct Ms as [|msg [|msg' Ms]]; try discriminate Hlen.
  exists msg. split; [exact Hm|].
  apply Forall_inv in Hall.
  destruct Hall as (prod & fname & dset & topic & Hin & Hds & Ht & _ & Harea).
  vm_compute in Hin. apply list_elem_of_singleton in Hin.
  injection Hin as -> ->.
  vm_compute in Hds. injection Hds as <-.
  injection Ht as <-.
  destruct (Harea (VStr "Europe 4 km") (VStr "euro4") (VStr "ps60n")
              (VStr "+proj=stere") (VInt 1024) (VInt 768)
              eq_refl eq_refl eq_refl eq_refl eq_refl eq_refl) as [Ha Hs].
  split; [exact Hs | exact Ha].
Defined.

